(** * express-cli: a shallow embedding of [bin/express-cli.js]

    The generator is one JavaScript file.  Its pure parts (the app-name
    normalisation, the confirmation test, the manifest construction) are
    embedded as functions.  Its effects (directory creation, file writes,
    console output, the prompt, the process exit) are recorded as a trace of
    events: a computation emits events and then returns or throws.  What the
    run reads from outside (the working directory, directory listings, the
    template files, the line typed at the prompt) is a [World].  Writes to
    the destination are recorded, not executed: whether the operating system
    accepts them is outside the model.

    JavaScript strings are modelled by [string]; a character stands for one
    code unit below 256.  Objects whose key order is observable
    ([JSON.stringify] walks keys in insertion order) are association lists.
    The built-ins and packages the source calls ([path], regular
    expressions, [JSON.stringify], [minimatch], [sorted-object]) are modelled
    after their documented behaviour, [path] in its POSIX flavour. *)

From Stdlib Require Import Bool Arith Lia List Ascii String.
From Stdlib Require Import Sorted Permutation Orders Mergesort.
Import ListNotations.
Local Open Scope list_scope.
Local Open Scope string_scope.

(** ** Characters and strings *)

Module Chars.

Definition code (c : ascii) : nat := nat_of_ascii c.

Definition between (lo hi c : ascii) : bool :=
  ((code lo <=? code c) && (code c <=? code hi))%nat.

Definition is_upper (c : ascii) : bool := between "A" "Z" c.
Definition is_lower (c : ascii) : bool := between "a" "z" c.
Definition is_digit (c : ascii) : bool := between "0" "9" c.
Definition is_dot (c : ascii) : bool := Ascii.eqb c ".".
Definition is_dash (c : ascii) : bool := Ascii.eqb c "-".
Definition is_underscore (c : ascii) : bool := Ascii.eqb c "_".
Definition is_slash (c : ascii) : bool := Ascii.eqb c "/".

(** The class [[A-Za-z0-9.-]]. *)
Definition is_name_char (c : ascii) : bool :=
  is_upper c || is_lower c || is_digit c || is_dot c || is_dash c.

(** The class [[-_.]]. *)
Definition is_sep (c : ascii) : bool :=
  is_dash c || is_underscore c || is_dot c.

(** The class [[a-z0-9.-]]. *)
Definition is_safe (c : ascii) : bool :=
  is_lower c || is_digit c || is_dot c || is_dash c.

(** [String.prototype.toLowerCase] on one code unit below 256: the ASCII
    capitals and the Latin-1 capitals U+00C0..U+00DE (without the
    multiplication sign U+00D7) move up by 32. *)
Definition lower_char (c : ascii) : ascii :=
  let n := code c in
  if is_upper c then ascii_of_nat (n + 32)
  else if ((192 <=? n) && (n <=? 222) && negb (n =? 215))%nat
       then ascii_of_nat (n + 32)
  else c.

(** [Canonicalize] of a case-insensitive regular expression without the
    unicode flag: the upper-case form, except that a code unit of 128 or more
    is never folded onto one below 128.  Against the ASCII letters of a
    pattern this is ASCII upper-casing. *)
Definition canonicalize (c : ascii) : ascii :=
  if is_lower c then ascii_of_nat (code c - 32) else c.

End Chars.

Module Str.

Fixpoint all (p : ascii -> bool) (s : string) : bool :=
  match s with
  | EmptyString => true
  | String c t => p c && all p t
  end.

Fixpoint map (f : ascii -> ascii) (s : string) : string :=
  match s with
  | EmptyString => EmptyString
  | String c t => String (f c) (map f t)
  end.

Fixpoint drop (n : nat) (s : string) : string :=
  match n, s with
  | S k, String _ t => drop k t
  | _, _ => s
  end.

Fixpoint drop_while (p : ascii -> bool) (s : string) : string :=
  match s with
  | EmptyString => EmptyString
  | String c t => if p c then drop_while p t else s
  end.

(** Length of the longest prefix whose characters all satisfy [p]. *)
Fixpoint run_length (p : ascii -> bool) (s : string) : nat :=
  match s with
  | EmptyString => 0
  | String c t => if p c then S (run_length p t) else 0
  end.

Definition is_empty (s : string) : bool :=
  match s with EmptyString => true | _ => false end.

Definition first_is (p : ascii -> bool) (s : string) : bool :=
  match s with
  | EmptyString => false
  | String c _ => p c
  end.

Fixpoint last_is (p : ascii -> bool) (s : string) : bool :=
  match s with
  | EmptyString => false
  | String c EmptyString => p c
  | String _ t => last_is p t
  end.

(** [s.split(sep)] for a one-character separator. *)
Fixpoint split (sep : ascii) (s : string) : list string :=
  match s with
  | EmptyString => [EmptyString]
  | String c t =>
      if Ascii.eqb c sep then EmptyString :: split sep t
      else match split sep t with
           | h :: r => String c h :: r
           | [] => [String c EmptyString]
           end
  end.

Definition toLowerCase (s : string) : string := map Chars.lower_char s.

(** JavaScript's [a || b] on strings: the empty string is the only falsy one. *)
Definition or_else (a b : string) : string :=
  if is_empty a then b else a.

End Str.

(** ** Regular expressions

    The three literals of the source use anchors, character classes, greedy
    [+] on a class, concatenation and alternation.  [rmatch] is the
    backtracking matcher: from a position it lists the states reachable by
    the expression, in the order a backtracking engine tries them. *)

Module Regex.

Inductive regex : Type :=
| Eps                                  (* the empty expression *)
| Bol                                  (* ^ *)
| Eol                                  (* $ *)
| Cls (p : ascii -> bool)              (* one character of a class *)
| Plus (p : ascii -> bool)             (* class+, greedy *)
| Seq (a b : regex)
| Alt (a b : regex).

(** A matcher state: the index reached and the input left from there. *)
Definition mstate : Type := (nat * string)%type.

Fixpoint run_plus (p : ascii -> bool) (pos : nat) (s : string) : list mstate :=
  match s with
  | EmptyString => []
  | String c t => if p c then (run_plus p (S pos) t ++ [(S pos, t)])%list else []
  end.

Fixpoint rmatch (r : regex) (st : mstate) : list mstate :=
  match r with
  | Eps => [st]
  | Bol => if (fst st =? 0)%nat then [st] else []
  | Eol => match snd st with EmptyString => [st] | String _ _ => [] end
  | Cls p =>
      match snd st with
      | EmptyString => []
      | String c t => if p c then [(S (fst st), t)] else []
      end
  | Plus p => run_plus p (fst st) (snd st)
  | Seq a b => flat_map (rmatch b) (rmatch a st)
  | Alt a b => (rmatch a st ++ rmatch b st)%list
  end.

(** The match that starts exactly at [pos], where [s] is the input from
    [pos] on: its end index. *)
Definition match_at (r : regex) (pos : nat) (s : string) : option nat :=
  match rmatch r (pos, s) with
  | [] => None
  | (e, _) :: _ => Some e
  end.

(** [RegExp.prototype.test]: a match starting at some index. *)
Fixpoint test_from (r : regex) (pos : nat) (s : string) : bool :=
  match match_at r pos s with
  | Some _ => true
  | None =>
      match s with
      | EmptyString => false
      | String _ t => test_from r (S pos) t
      end
  end.

Definition test (r : regex) (s : string) : bool := test_from r 0 s.

(** [String.prototype.replace] with a global expression and a constant
    replacement.  [skip] counts the characters of the current match still to
    be dropped; an empty match advances by one character, which is kept. *)
Fixpoint replace_from (r : regex) (rep : string) (pos : nat) (s : string)
    (skip : nat) {struct s} : string :=
  match skip with
  | S k =>
      match s with
      | EmptyString => EmptyString
      | String _ t => replace_from r rep (S pos) t k
      end
  | O =>
      match match_at r pos s with
      | Some e =>
          rep ++
          match s with
          | EmptyString => EmptyString
          | String c t =>
              if (e =? pos)%nat then String c (replace_from r rep (S pos) t 0)
              else replace_from r rep (S pos) t (e - pos - 1)
          end
      | None =>
          match s with
          | EmptyString => EmptyString
          | String c t => String c (replace_from r rep (S pos) t 0)
          end
      end
  end.

Definition replace (r : regex) (rep : string) (s : string) : string :=
  replace_from r rep 0 s 0.

(** A literal character under the [i] flag. *)
Definition ci (x : ascii) : regex :=
  Cls (fun c => Ascii.eqb (Chars.canonicalize c) (Chars.canonicalize x)).

Fixpoint ci_word (w : string) : regex :=
  match w with
  | EmptyString => Eps
  | String x EmptyString => ci x
  | String x t => Seq (ci x) (ci_word t)
  end.

End Regex.

(** ** Node's [path] module (POSIX flavour)

    [path] is a built-in of the runtime; it is modelled on path segments:
    empty and [.] segments vanish, [..] removes the segment before it. *)

Module Path.

Definition seg_step (allowAboveRoot : bool) (stack : list string) (seg : string)
    : list string :=
  if Str.is_empty seg || String.eqb seg "." then stack
  else if String.eqb seg ".." then
    match rev stack with
    | [] => if allowAboveRoot then [".."] else []
    | top :: below =>
        if String.eqb top ".." then
          (if allowAboveRoot then (stack ++ [".."])%list else stack)
        else rev below
    end
  else (stack ++ [seg])%list.

Definition normalizeString (path : string) (allowAboveRoot : bool) : string :=
  String.concat "/" (fold_left (seg_step allowAboveRoot) (Str.split "/" path) []).

Definition isAbsolute (path : string) : bool := Str.first_is Chars.is_slash path.

(** [path.normalize]. *)
Definition normalize (path : string) : string :=
  if Str.is_empty path then "."
  else
    let abs := isAbsolute path in
    let trailing := Str.last_is Chars.is_slash path in
    let p := normalizeString path (negb abs) in
    if Str.is_empty p then
      (if abs then "/" else if trailing then "./" else ".")
    else
      let p := if trailing then p ++ "/" else p in
      if abs then "/" ++ p else p.

(** [path.join(...args)]: the non-empty arguments joined by [/], normalised. *)
Definition join (args : list string) : string :=
  match filter (fun a => negb (Str.is_empty a)) args with
  | [] => "."
  | parts => normalize (String.concat "/" parts)
  end.

(** [path.resolve(p)] with one argument, [cwd] being [process.cwd()]. *)
Definition resolve (cwd p : string) : string :=
  let '(acc, abs) :=
    if Str.is_empty p then (EmptyString, false)
    else (p ++ "/", isAbsolute p) in
  let '(acc, abs) :=
    if abs then (acc, abs)
    else if Str.is_empty cwd then (acc, abs)
    else (cwd ++ "/" ++ acc, isAbsolute cwd) in
  let r := normalizeString acc (negb abs) in
  if abs then "/" ++ r
  else if Str.is_empty r then "." else r.

(** [path.basename(p)]: the last non-empty segment, trailing slashes
    ignored; empty when there is none. *)
Definition basename (p : string) : string :=
  last (filter (fun a => negb (Str.is_empty a)) (Str.split "/" p)) EmptyString.

End Path.

(** ** The pure functions of the source *)

(** [/^y|yes|ok|true$/i]: the alternation binds weaker than the anchors, so
    the four alternatives are [^y], [yes], [ok] and [true$]. *)
Definition confirm_re : Regex.regex :=
  Regex.Alt (Regex.Seq Regex.Bol (Regex.ci_word "y"))
    (Regex.Alt (Regex.ci_word "yes")
       (Regex.Alt (Regex.ci_word "ok")
          (Regex.Seq (Regex.ci_word "true") Regex.Eol))).

(** The value [confirm] hands to its callback for the line read. *)
Definition confirm_answer (input : string) : bool :=
  Regex.test confirm_re input.

(** [/[^A-Za-z0-9.-]+/g] *)
Definition unsafe_re : Regex.regex :=
  Regex.Plus (fun c => negb (Chars.is_name_char c)).

(** [/^[-_.]+|-+$/g] *)
Definition trim_re : Regex.regex :=
  Regex.Alt (Regex.Seq Regex.Bol (Regex.Plus Chars.is_sep))
            (Regex.Seq (Regex.Plus Chars.is_dash) Regex.Eol).

Definition createAppName (pathName : string) : string :=
  Str.toLowerCase
    (Regex.replace trim_re ""
       (Regex.replace unsafe_re "-" (Path.basename pathName))).


(** ** JavaScript objects with string values

    Own string keys are enumerated in insertion order (none of the keys used
    here is an array index); assigning to a key that exists keeps its place. *)

Module Obj.

Definition t : Type := list (string * string).

Definition keys (o : t) : list string := List.map fst o.

Fixpoint get (k : string) (o : t) : option string :=
  match o with
  | [] => None
  | (k', v) :: r => if String.eqb k' k then Some v else get k r
  end.

(** [o[k] = v] *)
Fixpoint set (k v : string) (o : t) : t :=
  match o with
  | [] => [(k, v)]
  | (k', v') :: r =>
      if String.eqb k' k then (k', v) :: r else (k', v') :: set k v r
  end.

End Obj.

(** [Array.prototype.sort()] without a comparator orders strings by code
    units and is stable; the library merge sort is stable too. *)
Module StringOrder <: TotalLeBool.
Definition t := string.
Definition leb := String.leb.
Definition leb_total : forall a b, leb a b = true \/ leb b a = true :=
  String.leb_total.
End StringOrder.

Module StringSort := Sort StringOrder.

(** The [sorted-object] package: a fresh object that receives the keys of
    its argument in sorted order. *)
Definition sortedObject (input : Obj.t) : Obj.t :=
  fold_left
    (fun output key =>
       match Obj.get key input with
       | Some v => Obj.set key v output
       | None => output
       end)
    (StringSort.sort (Obj.keys input)) [].

(** ** The manifest *)

Record Pkg : Type := mkPkg {
  pkg_name : string;
  pkg_version : string;
  pkg_private : bool;
  pkg_type : string;
  scripts : Obj.t;
  dependencies : Obj.t;
  devDependencies : Obj.t
}.

Definition set_script (k v : string) (p : Pkg) : Pkg :=
  mkPkg (pkg_name p) (pkg_version p) (pkg_private p) (pkg_type p)
        (Obj.set k v (scripts p)) (dependencies p) (devDependencies p).

Definition set_dependency (k v : string) (p : Pkg) : Pkg :=
  mkPkg (pkg_name p) (pkg_version p) (pkg_private p) (pkg_type p)
        (scripts p) (Obj.set k v (dependencies p)) (devDependencies p).

Definition set_devDependency (k v : string) (p : Pkg) : Pkg :=
  mkPkg (pkg_name p) (pkg_version p) (pkg_private p) (pkg_type p)
        (scripts p) (dependencies p) (Obj.set k v (devDependencies p)).

Definition with_dependencies (d : Obj.t) (p : Pkg) : Pkg :=
  mkPkg (pkg_name p) (pkg_version p) (pkg_private p) (pkg_type p)
        (scripts p) d (devDependencies p).

(** ** [JSON.stringify(value, null, 2)] on the manifest *)

Module Json.

Definition dq : string := String "034" EmptyString.
Definition bs : string := String "092" EmptyString.
Definition nl : string := String "010" EmptyString.

Definition hex_digit (n : nat) : ascii :=
  if (n <? 10)%nat then ascii_of_nat (48 + n) else ascii_of_nat (87 + n).

Definition escape_char (c : ascii) : string :=
  let n := nat_of_ascii c in
  if (n =? 34)%nat then bs ++ dq
  else if (n =? 92)%nat then bs ++ bs
  else if (n =? 8)%nat then bs ++ "b"
  else if (n =? 9)%nat then bs ++ "t"
  else if (n =? 10)%nat then bs ++ "n"
  else if (n =? 12)%nat then bs ++ "f"
  else if (n =? 13)%nat then bs ++ "r"
  else if (n <? 32)%nat then
    bs ++ "u00" ++ String (hex_digit (n / 16)) (String (hex_digit (n mod 16)) "")
  else String c "".

Fixpoint escape (s : string) : string :=
  match s with
  | EmptyString => EmptyString
  | String c t => escape_char c ++ escape t
  end.

Definition quote (s : string) : string := dq ++ escape s ++ dq.

(** An object whose member values are already serialised; [indent] is the
    indentation of the line the object starts on. *)
Definition object (indent : string) (members : list (string * string)) : string :=
  match members with
  | [] => "{}"
  | _ =>
      "{" ++ nl ++
      String.concat ("," ++ nl)
        (List.map (fun kv => indent ++ "  " ++ quote (fst kv) ++ ": " ++ snd kv)
                  members) ++
      nl ++ indent ++ "}"
  end.

Definition of_obj (indent : string) (o : Obj.t) : string :=
  object indent (List.map (fun kv => (fst kv, quote (snd kv))) o).

Definition stringify (p : Pkg) : string :=
  object ""
    [ ("name", quote (pkg_name p));
      ("version", quote (pkg_version p));
      ("private", if pkg_private p then "true" else "false");
      ("type", quote (pkg_type p));
      ("scripts", of_obj "  " (scripts p));
      ("dependencies", of_obj "  " (dependencies p));
      ("devDependencies", of_obj "  " (devDependencies p)) ].

End Json.

(** ** [minimatch] on one path segment

    The patterns of the source are [*.css] and [*.js]; the model covers
    literal characters, [?] and [*].  A wildcard never matches a slash, and a
    name that starts with a dot is matched only by a pattern that starts with
    a literal dot.  Literals are compared exactly: no [nocase] option is
    passed. *)

Module Glob.

Inductive token : Type := Star | Any | Lit (c : ascii).

Fixpoint parse (pattern : string) : list token :=
  match pattern with
  | EmptyString => []
  | String c t =>
      (if Ascii.eqb c "*" then Star
       else if Ascii.eqb c "?" then Any
       else Lit c) :: parse t
  end.

Fixpoint matches (toks : list token) (s : string) : bool :=
  match toks with
  | [] => Str.is_empty s
  | Lit c :: r =>
      match s with
      | EmptyString => false
      | String d t => Ascii.eqb c d && matches r t
      end
  | Any :: r =>
      match s with
      | EmptyString => false
      | String d t => negb (Chars.is_slash d) && matches r t
      end
  | Star :: r =>
      (fix star (s : string) : bool :=
         matches r s ||
         match s with
         | EmptyString => false
         | String d t => negb (Chars.is_slash d) && star t
         end) s
  end.

Definition starts_with_dot (toks : list token) : bool :=
  match toks with
  | Lit c :: _ => Chars.is_dot c
  | _ => false
  end.

(** [minimatch(name, pattern, { matchBase: true })] for a pattern without a
    slash: the pattern is matched against the base name. *)
Definition minimatch (name pattern : string) : bool :=
  let toks := parse pattern in
  let base := Path.basename name in
  negb (Str.is_empty base) &&
  (negb (Str.first_is Chars.is_dot base) || starts_with_dot toks) &&
  matches toks base.

End Glob.

(** ** The environment and the effects *)

(** What commander leaves in [program] after parsing [process.argv]: the
    five boolean options and the remaining arguments. *)
Record Program : Type := mkProgram {
  git : bool;
  pg : bool;
  dev : bool;
  test : bool;
  force : bool;
  args : list string
}.

Inductive listing : Type :=
| Entries (files : list string)
| ReadError (code : string).

(** What reading a file gives: its text, or the error thrown ([ENOENT],
    [EISDIR], [EACCES], ...). *)
Inductive file_read : Type :=
| Contents (contents : string)
| ReadFailure (code : string).

(** Everything the run reads from outside. *)
Record World : Type := mkWorld {
  cwd : string;                          (* process.cwd() *)
  dirname : string;                      (* __dirname *)
  readdir : string -> listing;           (* fs.readdir, fs.readdirSync *)
  readFile : string -> file_read;        (* fs.readFileSync(_, "utf-8") *)
  stdin : option string;                 (* the line typed at the prompt *)
  platform : string;                     (* process.platform *)
  env_underscore : bool                  (* process.env._ is defined *)
}.

(** The bindings handed to [ejs.render]. *)
Record Mount : Type := mkMount { mount_path : string; mount_code : string }.

Inductive locals : Type :=
| AppLocals (localModules modules : Obj.t) (mounts : list Mount)
            (uses : list string) (view : bool)
| WwwLocals (name : string).

Inductive data : Type :=
| Text (s : string)
| Ejs (contents : string) (l : locals).   (* ejs.render(contents, l, _) *)

Inductive event : Type :=
| Mkdir (path : string) (mode : nat)                 (* mkdirp.sync *)
| WriteFile (path : string) (d : data) (mode : nat)  (* fs.writeFileSync *)
| Stdout (line : string)                             (* console.log *)
| Stderr (line : string)                             (* console.error *)
| Question (msg : string)                            (* rl.question *)
| StdinDestroy
| Exit (code : nat).

Definition mutates (e : event) : bool :=
  match e with
  | Mkdir _ _ | WriteFile _ _ _ => true
  | _ => false
  end.

Definition is_question (e : event) : bool :=
  match e with
  | Question _ => true
  | _ => false
  end.

Definition written_path (e : event) : option string :=
  match e with
  | WriteFile p _ _ => Some p
  | _ => None
  end.

Fixpoint written_paths (t : list event) : list string :=
  match t with
  | [] => []
  | e :: r =>
      match written_path e with
      | Some p => p :: written_paths r
      | None => written_paths r
      end
  end.

(** A computation emits events and then returns or throws. *)
Inductive result (A : Type) : Type :=
| Ok (a : A)
| Thrown (code : string).
Arguments Ok {A} a.
Arguments Thrown {A} code.

Definition M (A : Type) : Type := (list event * result A)%type.

Definition ret {A : Type} (a : A) : M A := ([], Ok a).

Definition bind {A B : Type} (m : M A) (f : A -> M B) : M B :=
  match m with
  | (t, Ok a) => let '(t', r) := f a in ((t ++ t')%list, r)
  | (t, Thrown e) => (t, Thrown e)
  end.

Definition emit (e : event) : M unit := ([e], Ok tt).
Definition throw {A : Type} (code : string) : M A := ([], Thrown code).
Definition trace {A : Type} (m : M A) : list event := fst m.
Definition when (b : bool) (m : M unit) : M unit := if b then m else ret tt.

Declare Scope run_scope.
Delimit Scope run_scope with run.
Notation "x <- m ;; k" := (bind m (fun x => k))
  (at level 61, m at next level, right associativity) : run_scope.
Notation "m ;; k" := (bind m (fun _ => k))
  (at level 61, right associativity) : run_scope.
Local Open Scope run_scope.

(** [array.forEach(f)] *)
Fixpoint forEach {A : Type} (l : list A) (f : A -> M unit) : M unit :=
  match l with
  | [] => ret tt
  | x :: r => f x ;; forEach r f
  end.

Definition MODE_0666 : nat := 438.
Definition MODE_0755 : nat := 493.

Definition esc : string := String "027" EmptyString.
Definition create_tag : string := "   " ++ esc ++ "[36mcreate" ++ esc ++ "[0m : ".

Section Run.

Variable w : World.
Variable program : Program.

Definition TEMPLATE_DIR : string := Path.join [dirname w; ".."; "templates"].

Definition readFileSync (path : string) : M string :=
  match readFile w path with
  | Contents contents => ret contents
  | ReadFailure code => throw code
  end.

Definition readdirSync (path : string) : M (list string) :=
  match readdir w path with
  | Entries files => ret files
  | ReadError code => throw code
  end.

(** [write(file, str, mode)]: [mode || MODE_0666]; zero is falsy. *)
Definition write (file : string) (str : data) (mode : option nat) : M unit :=
  emit (WriteFile file str
          match mode with
          | Some (S m) => S m
          | _ => MODE_0666
          end) ;;
  emit (Stdout (create_tag ++ file)).

Definition mkdir (base dir : string) : M unit :=
  let loc := Path.join [base; dir] in
  emit (Stdout (create_tag ++ loc ++ "/")) ;;
  emit (Mkdir loc MODE_0755).

Definition copyTemplate (from to : string) : M unit :=
  contents <- readFileSync (Path.join [TEMPLATE_DIR; from]) ;;
  write to (Text contents) None.

Definition copyTemplateMulti (fromDir toDir nameGlob : string) : M unit :=
  names <- readdirSync (Path.join [TEMPLATE_DIR; fromDir]) ;;
  forEach (filter (fun name => Glob.minimatch name nameGlob) names)
    (fun name =>
       copyTemplate (Path.join [fromDir; name]) (Path.join [toDir; name])).

(** [loadTemplate(name)] reads the template; its [render] is [Ejs] applied
    to the contents and to the locals as they are at the time of the call. *)
Definition loadTemplate (name : string) : M string :=
  readFileSync (Path.join [dirname w; ".."; "templates"; name ++ ".ejs"]).

Definition launchedFromCmd : bool :=
  String.eqb (platform w) "win32" && negb (env_underscore w).

(** *** The manifest, stage by stage *)

Definition pkg_initial (name : string) : Pkg :=
  mkPkg name "0.0.0" true "module"
        [("start", "node ./bin/www.js")]
        [("debug", "~2.6.9"); ("express", "~4.16.1")]
        [].

Definition pkg_pg (p : Pkg) : Pkg :=
  if pg program then
    let p := set_dependency "pg" "^8.7.1" p in
    if dev program then
      let p := set_devDependency "dotenv" "^10.0.0" p in
      set_script "db:createusers"
        "node -r dotenv/config ./db/scripts/users/createTable.js" p
    else
      set_script "db:createusers" "node ./db/scripts/users/createTable.js" p
  else p.

Definition pkg_dev (p : Pkg) : Pkg :=
  if dev program then
    let p := set_devDependency "dotenv" "^10.0.0" p in
    let p := set_devDependency "nodemon" "^2.0.15" p in
    set_script "dev" "nodemon -r dotenv/config ./bin/www.js" p
  else p.

Definition pkg_middleware (p : Pkg) : Pkg :=
  let p := set_dependency "morgan" "~1.9.1" p in
  let p := set_dependency "cors" "^2.8.5" p in
  set_dependency "cookie-parser" "~1.4.4" p.

Definition pkg_test (p : Pkg) : Pkg :=
  let p := set_script "test"
             "node --experimental-vm-modules node_modules/jest/bin/jest.js" p in
  let p := set_devDependency "jest" "^27.4.5" p in
  set_devDependency "supertest" "^6.1.6" p.

(** [pkg.dependencies = sortedObject(pkg.dependencies)] *)
Definition pkg_sort (p : Pkg) : Pkg :=
  with_dependencies (sortedObject (dependencies p)) p.

(** [app.locals] as it stands when [app.render()] is called: every
    assignment and [push] of the source, in order. *)
Definition app_locals : locals :=
  AppLocals
    [("usersRouter", "./routes/users.js")]
    [("logger", "morgan"); ("cors", "cors"); ("cookieParser", "cookie-parser");
     ("__dirname", "./dirname.js")]
    [mkMount "/users" "usersRouter"]
    ["logger('dev')"; "cors()"; "express.json()";
     "express.urlencoded({ extended: false })"; "cookieParser()";
     "express.static(path.join(__dirname, " ++ Json.dq ++ "public" ++ Json.dq ++ "))"]
    false.

(** *** [createApplication(name, dir)]

    The function is [async] and awaits the (synchronous) results of four
    [mkdir] calls; nothing else is scheduled meanwhile, so its statements run
    in program order. *)
Definition createApplication (name dir : string) : M unit :=
  emit (Stdout "") ;;
  let pkg := pkg_initial name in
  let pkg := pkg_pg pkg in
  let pkg := pkg_dev pkg in
  app <- loadTemplate "js/app.js" ;;
  www <- loadTemplate "js/www.js" ;;
  let pkg := pkg_middleware pkg in
  when (negb (String.eqb dir ".")) (mkdir dir ".") ;;
  mkdir dir "public" ;;
  mkdir dir "public/js" ;;
  mkdir dir "public/images" ;;
  mkdir dir "public/css" ;;
  when (pg program)
    (mkdir dir "models" ;;
     mkdir dir "db" ;;
     mkdir dir "db/scripts" ;;
     mkdir dir "db/scripts/users" ;;
     copyTemplate "models/users.js" (Path.join [dir; "models"; "users.js"]) ;;
     copyTemplate "db/connection.js" (Path.join [dir; "db"; "connection.js"]) ;;
     copyTemplate "db/scripts/users/createTable.js"
       (Path.join [dir; "db"; "scripts"; "users"; "createTable.js"])) ;;
  when (test program)
    (copyTemplate "js/app.test.js" (Path.join [dir; "app.test.js"])) ;;
  let pkg := if test program then pkg_test pkg else pkg in
  copyTemplateMulti "css" (dir ++ "/public/css") "*.css" ;;
  mkdir dir "routes" ;;
  copyTemplateMulti "js/routes" (dir ++ "/routes") "*.js" ;;
  copyTemplate "js/index.html" (Path.join [dir; "public/index.html"]) ;;
  when (git program)
    (copyTemplate "js/gitignore" (Path.join [dir; ".gitignore"])) ;;
  copyTemplate "js/dirname.js" (Path.join [dir; "dirname.js"]) ;;
  let pkg := pkg_sort pkg in
  write (Path.join [dir; "app.js"]) (Ejs app app_locals) None ;;
  write (Path.join [dir; "package.json"])
        (Text (Json.stringify pkg ++ Json.nl)) None ;;
  mkdir dir "bin" ;;
  write (Path.join [dir; "bin/www.js"]) (Ejs www (WwwLocals name))
        (Some MODE_0755) ;;
  let prompt := if launchedFromCmd then ">" else "$" in
  when (negb (String.eqb dir "."))
    (emit (Stdout "") ;;
     emit (Stdout "   change directory:") ;;
     emit (Stdout ("     " ++ prompt ++ " cd " ++ dir))) ;;
  emit (Stdout "") ;;
  emit (Stdout "   install dependencies:") ;;
  emit (Stdout ("     " ++ prompt ++ " npm install")) ;;
  emit (Stdout "") ;;
  emit (Stdout "   run the app:") ;;
  (if launchedFromCmd
   then emit (Stdout ("     " ++ prompt ++ " SET DEBUG=" ++ name ++ ":* & npm start"))
   else emit (Stdout ("     " ++ prompt ++ " DEBUG=" ++ name ++ ":* npm start"))) ;;
  emit (Stdout "").

(** The manifest [createApplication] serialises. *)
Definition manifest (name : string) : Pkg :=
  let pkg := pkg_middleware (pkg_dev (pkg_pg (pkg_initial name))) in
  pkg_sort (if test program then pkg_test pkg else pkg).

(** *** [emptyDirectory], [confirm], [exit], [main] *)

Definition emptyDirectory (dir : string) (fn : bool -> M unit) : M unit :=
  match readdir w dir with
  | ReadError code =>
      if negb (String.eqb code "ENOENT") then throw code else fn true
  | Entries files => fn (match files with [] => true | _ => false end)
  end.

(** The callback runs once a line has been read; at end of input it never
    runs. *)
Definition confirm (msg : string) (callback : bool -> M unit) : M unit :=
  emit (Question msg) ;;
  match stdin w with
  | Some input => callback (confirm_answer input)
  | None => ret tt
  end.

Definition exit (code : nat) : M unit := emit (Exit code).

Definition destinationPath : string :=
  match args program with
  | [] => "."
  | a :: _ => Str.or_else a "."
  end.

Definition appName : string :=
  Str.or_else (createAppName (Path.resolve (cwd w) destinationPath)) "hello-world".

Definition main : M unit :=
  emptyDirectory destinationPath (fun empty =>
    if empty || force program then
      createApplication appName destinationPath
    else
      confirm "destination is not empty, continue? [y/N] " (fun ok =>
        if ok then
          emit StdinDestroy ;;
          createApplication appName destinationPath
        else
          emit (Stderr "aborting") ;;
          exit 1)).

End Run.

(** ** Closed forms of the two replacements

    What the two [replace] calls of [createAppName] compute, written as
    plain recursions; the lemmas below prove them equal to the regular
    expression runs. *)

(** Every maximal run of characters outside [[A-Za-z0-9.-]] becomes one
    dash; [inrun] tells that the dash of the current run is already out. *)
Fixpoint squeeze (inrun : bool) (s : string) : string :=
  match s with
  | EmptyString => EmptyString
  | String c t =>
      if Chars.is_name_char c then String c (squeeze false t)
      else if inrun then squeeze true t
      else String "-" (squeeze true t)
  end.

(** The dashes at the end of the string are dropped. *)
Fixpoint strip_dashes (s : string) : string :=
  match s with
  | EmptyString => EmptyString
  | String c t => if Str.all Chars.is_dash s then EmptyString
                  else String c (strip_dashes t)
  end.

Definition trim (s : string) : string :=
  strip_dashes (Str.drop_while Chars.is_sep s).

(** ** Absolute paths in normal form

    [process.cwd()] is an absolute path in normal form: a slash followed by
    segments that are non-empty, hold no slash and are neither [.] nor
    [..], joined by slashes. *)

Definition plain_segment (s : string) : bool :=
  negb (Str.is_empty s)
  && Str.all (fun c => negb (Chars.is_slash c)) s
  && negb (String.eqb s ".")
  && negb (String.eqb s "..").

Definition absolute_of (segs : list string) : string :=
  "/" ++ String.concat "/" segs.

(** ** A packaged tool and the events of one assembly

    [packaged w] tells that the template store of [w] holds every template
    the generator may read.  [assembly] lists, stage by stage, the events of
    [createApplication] on such a store; the two are proved equal below. *)

Definition template_text (w : World) (from : string) : string :=
  match readFile w (Path.join [TEMPLATE_DIR w; from]) with
  | Contents contents => contents
  | ReadFailure _ => EmptyString
  end.

Definition ejs_text (w : World) (name : string) : string :=
  match readFile w (Path.join [dirname w; ".."; "templates"; name ++ ".ejs"]) with
  | Contents contents => contents
  | ReadFailure _ => EmptyString
  end.

Definition entries (w : World) (fromDir : string) : list string :=
  match readdir w (Path.join [TEMPLATE_DIR w; fromDir]) with
  | Entries files => files
  | ReadError _ => []
  end.

Definition matching (w : World) (fromDir nameGlob : string) : list string :=
  filter (fun name => Glob.minimatch name nameGlob) (entries w fromDir).

Definition has_template (w : World) (from : string) : bool :=
  match readFile w (Path.join [TEMPLATE_DIR w; from]) with
  | Contents _ => true
  | ReadFailure _ => false
  end.

Definition has_ejs (w : World) (name : string) : bool :=
  match readFile w (Path.join [dirname w; ".."; "templates"; name ++ ".ejs"]) with
  | Contents _ => true
  | ReadFailure _ => false
  end.

Definition has_family (w : World) (fromDir nameGlob : string) : bool :=
  match readdir w (Path.join [TEMPLATE_DIR w; fromDir]) with
  | Entries _ =>
      forallb (fun name => has_template w (Path.join [fromDir; name]))
              (matching w fromDir nameGlob)
  | ReadError _ => false
  end.

Definition packaged (w : World) : bool :=
  has_ejs w "js/app.js" && has_ejs w "js/www.js"
  && has_template w "models/users.js"
  && has_template w "db/connection.js"
  && has_template w "db/scripts/users/createTable.js"
  && has_template w "js/app.test.js"
  && has_template w "js/index.html"
  && has_template w "js/gitignore"
  && has_template w "js/dirname.js"
  && has_family w "css" "*.css"
  && has_family w "js/routes" "*.js".

Definition made (base dir : string) : list event :=
  [Stdout (create_tag ++ Path.join [base; dir] ++ "/");
   Mkdir (Path.join [base; dir]) MODE_0755].

Definition written (file : string) (d : data) (mode : nat) : list event :=
  [WriteFile file d mode; Stdout (create_tag ++ file)].

Definition copied (w : World) (from to : string) : list event :=
  written to (Text (template_text w from)) MODE_0666.

Definition copied_family (w : World) (fromDir toDir nameGlob : string) : list event :=
  flat_map
    (fun name => copied w (Path.join [fromDir; name]) (Path.join [toDir; name]))
    (matching w fromDir nameGlob).

Definition guidance (w : World) (name dir : string) : list event :=
  let prompt := if launchedFromCmd w then ">" else "$" in
  ((if String.eqb dir "." then []
    else [Stdout ""; Stdout "   change directory:";
          Stdout ("     " ++ prompt ++ " cd " ++ dir)]) ++
   [Stdout ""; Stdout "   install dependencies:";
    Stdout ("     " ++ prompt ++ " npm install");
    Stdout ""; Stdout "   run the app:";
    Stdout (if launchedFromCmd w
            then "     " ++ prompt ++ " SET DEBUG=" ++ name ++ ":* & npm start"
            else "     " ++ prompt ++ " DEBUG=" ++ name ++ ":* npm start");
    Stdout ""])%list.

Definition assembly (w : World) (program : Program) (name dir : string)
    : list event :=
  ([Stdout ""] ++
   (if String.eqb dir "." then [] else made dir ".") ++
   made dir "public" ++ made dir "public/js" ++
   made dir "public/images" ++ made dir "public/css" ++
   (if pg program then
      made dir "models" ++ made dir "db" ++
      made dir "db/scripts" ++ made dir "db/scripts/users" ++
      copied w "models/users.js" (Path.join [dir; "models"; "users.js"]) ++
      copied w "db/connection.js" (Path.join [dir; "db"; "connection.js"]) ++
      copied w "db/scripts/users/createTable.js"
        (Path.join [dir; "db"; "scripts"; "users"; "createTable.js"])
    else []) ++
   (if test program
    then copied w "js/app.test.js" (Path.join [dir; "app.test.js"]) else []) ++
   copied_family w "css" (dir ++ "/public/css") "*.css" ++
   made dir "routes" ++
   copied_family w "js/routes" (dir ++ "/routes") "*.js" ++
   copied w "js/index.html" (Path.join [dir; "public/index.html"]) ++
   (if git program
    then copied w "js/gitignore" (Path.join [dir; ".gitignore"]) else []) ++
   copied w "js/dirname.js" (Path.join [dir; "dirname.js"]) ++
   written (Path.join [dir; "app.js"])
           (Ejs (ejs_text w "js/app.js") app_locals) MODE_0666 ++
   written (Path.join [dir; "package.json"])
           (Text (Json.stringify (manifest program name) ++ Json.nl)) MODE_0666 ++
   made dir "bin" ++
   written (Path.join [dir; "bin/www.js"])
           (Ejs (ejs_text w "js/www.js") (WwwLocals name)) MODE_0755 ++
   guidance w name dir)%list.

(** The order of strings by code units, as a relation. *)
Definition string_le (a b : string) : Prop := String.leb a b = true.

(** ** Sample environments

    A packaged tool installed under [/opt/express-cli], run from
    [/home/me/my-site].  The listing of the route templates comes in an
    order that is not alphabetical; [dest] is what reading the destination
    directory gives. *)

Definition sample_readdir (dest : listing) (path : string) : listing :=
  if String.eqb path "/opt/express-cli/templates/css" then
    Entries ["style.css"; "README.md"; "print.CSS"]
  else if String.eqb path "/opt/express-cli/templates/js/routes" then
    Entries ["users.js"; "index.js"]
  else dest.

Definition sample_readFile (path : string) : file_read :=
  if String.prefix "/opt/express-cli/templates/" path
  then Contents ("// " ++ path) else ReadFailure "ENOENT".

Definition sample_world (dest : listing) (answer : option string) : World :=
  mkWorld "/home/me/my-site" "/opt/express-cli/bin"
          (sample_readdir dest) sample_readFile answer "linux" true.

Definition flags (git pg dev test force : bool) (args : list string) : Program :=
  mkProgram git pg dev test force args.

(** A computation that never asks a question. *)
Definition quiet {A : Type} (m : M A) : Prop :=
  Forall (fun e => is_question e = false) (trace m).

(** No event of the trace creates a directory or writes a file. *)
Definition no_mutation (t : list event) : bool :=
  forallb (fun e => negb (mutates e)) t.

(** The world [w] with the listing of one directory replaced. *)
Definition relisted (w : World) (path : string) (files : list string) : World :=
  mkWorld (cwd w) (dirname w)
          (fun p => if String.eqb p path then Entries files else readdir w p)
          (readFile w) (stdin w) (platform w) (env_underscore w).

From Stdlib Require Import ZArith.

(** ** Further parts of the source *)

(** The class [[A-Za-z0-9]]. *)
Definition is_alnum (c : ascii) : bool :=
  Chars.is_upper c || Chars.is_lower c || Chars.is_digit c.

(** The upper-case form the [i] flag compares by. *)
Definition canonical (s : string) : string := Str.map Chars.canonicalize s.

(** [s] begins with the word [w], case ignored as under the [i] flag. *)
Fixpoint ci_prefix (w s : string) : bool :=
  match w with
  | EmptyString => true
  | String x w' =>
      match s with
      | EmptyString => false
      | String c t =>
          Ascii.eqb (Chars.canonicalize c) (Chars.canonicalize x)
          && ci_prefix w' t
      end
  end.

(** Whether [/^y|yes|ok|true$/i] matches at the head of [s]; [at_start]
    tells that [s] is the whole input. *)
Definition accepts_here (at_start : bool) (s : string) : bool :=
  (at_start && ci_prefix "y" s)
  || ci_prefix "yes" s
  || ci_prefix "ok" s
  || (ci_prefix "true" s && Str.is_empty (Str.drop 4 s)).

(** The modes of one assembly under [dir]: directories are created with
    0755, files are written with 0666 and the launcher with 0755. *)
Definition mode_ok (dir : string) (e : event) : Prop :=
  match e with
  | Mkdir _ mode => mode = MODE_0755
  | WriteFile path _ mode =>
      mode = MODE_0666 \/
      (path = Path.join [dir; "bin/www.js"] /\ mode = MODE_0755)
  | _ => True
  end.

(** The [create] line of a directory or file is among the events [t]. *)
Definition announced_in (t : list event) (e : event) : Prop :=
  match e with
  | Mkdir path _ => In (Stdout (create_tag ++ path ++ "/")) t
  | WriteFile path _ _ => In (Stdout (create_tag ++ path)) t
  | _ => True
  end.

(** Event [a] takes place, and [b] takes place later. *)
Definition precedes (a b : event) (t : list event) : Prop :=
  exists t1 t2, t = (t1 ++ a :: t2)%list /\ In b t2.

(** Every directory created and every file written in [t] has its [create]
    line in [t]. *)
Definition self_announced (t : list event) : Prop := Forall (announced_in t) t.

(** The sample environment in which reading one template file fails with
    the given code. *)
Definition sample_world_without (missing code : string) : World :=
  mkWorld "/home/me/my-site" "/opt/express-cli/bin"
          (sample_readdir (Entries []))
          (fun path => if String.eqb path missing then ReadFailure code
                       else sample_readFile path)
          None "linux" true.

(** *** [warning] and [renamedOption] *)

Definition newline : ascii := "010"%char.

(** [console.error("  warning: %s", line)] prints the line after the
    prefix; the line itself is not scanned for format marks. *)
Definition warning (message : string) : M unit :=
  emit (Stderr "") ;;
  forEach (Str.split newline message)
    (fun line => emit (Stderr ("  warning: " ++ line))) ;;
  emit (Stderr "").

(** The callback [renamedOption(originalName, newName)] returns, applied to
    the option's value. *)
Definition renamedOption {A : Type} (originalName newName : string) (val : A)
    : M A :=
  warning ("option `" ++ originalName ++ "' has been renamed to `"
           ++ newName ++ "'") ;;
  ret val.

(** *** [exit], with its draining counter

    [exit] counts one pending write per stream and calls [done] once
    itself; [_exit] runs in the call of [done] that finds the counter at
    zero.  A stream is given by whether its write calls back before
    [write] returns ([true]) or later ([false]); the source passes
    standard output and standard error. *)

(** [function done() { if (!draining--) _exit(code); }] *)
Definition done (code : nat) (draining : Z) : list event * Z :=
  (if (draining =? 0)%Z then [Exit code] else [], (draining - 1)%Z).

(** The [forEach] over the streams: the events, the counter and the number
    of callbacks still to come. *)
Fixpoint exit_writes (code : nat) (streams : list bool) (draining : Z)
    : list event * Z * nat :=
  match streams with
  | [] => ([], draining, 0)
  | sync :: rest =>
      let draining := (draining + 1)%Z in
      let '(t, draining) :=
        if sync then done code draining else ([], draining) in
      let '(t', draining, pending) := exit_writes code rest draining in
      ((t ++ t')%list, draining, (if sync then 0 else 1) + pending)
  end.

(** The callbacks that arrive after [exit] has returned. *)
Fixpoint exit_callbacks (code : nat) (pending : nat) (draining : Z)
    : list event * Z :=
  match pending with
  | O => ([], draining)
  | S k =>
      let '(t, draining) := done code draining in
      let '(t', draining) := exit_callbacks code k draining in
      ((t ++ t')%list, draining)
  end.

Record Drain : Type := mkDrain {
  during_writes : list event;     (* while the writes are issued *)
  at_return : list event;         (* in the call of done that ends exit *)
  pending_callbacks : nat;
  counter_at_return : Z
}.

Definition exit_drain (code : nat) (streams : list bool) : Drain :=
  let '(t1, draining, pending) := exit_writes code streams 0%Z in
  let '(t2, draining) := done code draining in
  mkDrain t1 t2 pending draining.

(** The streams whose write calls back after [exit] has returned. *)
Definition deferred (streams : list bool) : nat :=
  List.length (filter negb streams).

(** The events an assembly may consist of: lines on standard output,
    directories, files. *)
Definition builds_or_prints (e : event) : bool :=
  match e with
  | Mkdir _ _ | WriteFile _ _ _ | Stdout _ => true
  | _ => false
  end.

(** A computation all of whose events build or print. *)
Definition only_builds {A : Type} (m : M A) : Prop :=
  Forall (fun e => builds_or_prints e = true) (trace m).

(** * Proofs *)

(** ** Characters *)

Ltac by_cases_on_char c :=
  destruct c as [[] [] [] [] [] [] [] []]; vm_compute; intuition congruence.

Lemma sep_is_name_or_underscore c :
  Chars.is_dash c = true -> Chars.is_sep c = true.
Proof. unfold Chars.is_sep. intros ->. reflexivity. Qed.

Lemma dash_is_name_char : Chars.is_name_char "-" = true.
Proof. reflexivity. Qed.

Lemma lower_char_safe c :
  Chars.is_name_char c = true -> Chars.is_safe (Chars.lower_char c) = true.
Proof. by_cases_on_char c. Qed.

Lemma lower_char_sep c :
  Chars.is_sep (Chars.lower_char c) = Chars.is_sep c.
Proof. by_cases_on_char c. Qed.

Lemma lower_char_dash c :
  Chars.is_dash (Chars.lower_char c) = Chars.is_dash c.
Proof. by_cases_on_char c. Qed.

Lemma lower_char_fixed c :
  Chars.is_safe c = true -> Chars.lower_char c = c.
Proof. by_cases_on_char c. Qed.

Lemma safe_is_name_char c :
  Chars.is_safe c = true -> Chars.is_name_char c = true.
Proof. by_cases_on_char c. Qed.

Lemma safe_not_slash c :
  Chars.is_safe c = true -> Chars.is_slash c = false.
Proof. by_cases_on_char c. Qed.

(** ** The matcher on the expressions of the source *)

Lemma run_plus_head p s : forall pos,
  match Regex.run_plus p pos s with
  | [] => Str.run_length p s = 0
  | (e, _) :: _ => e = pos + Str.run_length p s /\ 0 < Str.run_length p s
  end.
Proof.
  induction s as [|c t IH]; intros pos; simpl.
  - reflexivity.
  - destruct (p c); [|reflexivity].
    specialize (IH (S pos)).
    destruct (Regex.run_plus p (S pos) t) as [|[e r] l]; simpl.
    + rewrite IH. lia.
    + lia.
Qed.

Lemma match_at_plus p pos s :
  Regex.match_at (Regex.Plus p) pos s =
  match Str.run_length p s with
  | 0 => None
  | S n => Some (pos + S n)
  end.
Proof.
  unfold Regex.match_at. simpl.
  pose proof (run_plus_head p s pos) as H.
  destruct (Regex.run_plus p pos s) as [|[e r] l].
  - rewrite H. reflexivity.
  - destruct H as [-> H]. destruct (Str.run_length p s); [lia|reflexivity].
Qed.

(** Skipping [k] characters of a match is dropping them. *)
Lemma replace_from_skip r rep s : forall k pos,
  k <= String.length s ->
  Regex.replace_from r rep pos s k =
  Regex.replace_from r rep (pos + k) (Str.drop k s) 0.
Proof.
  induction s as [|c t IH]; intros k pos Hk; simpl in Hk.
  - assert (k = 0) by lia. subst. rewrite Nat.add_0_r. reflexivity.
  - destruct k as [|k].
    + rewrite Nat.add_0_r. reflexivity.
    + cbn [Regex.replace_from Str.drop]. rewrite IH by lia.
      f_equal. lia.
Qed.

Lemma run_length_le p s : Str.run_length p s <= String.length s.
Proof. induction s as [|c t IH]; simpl; [lia|]. destruct (p c); lia. Qed.

Lemma drop_run_length p s :
  Str.drop (Str.run_length p s) s = Str.drop_while p s.
Proof.
  induction s as [|c t IH]; simpl; [reflexivity|].
  destruct (p c); [exact IH|reflexivity].
Qed.

(** *** [/[^A-Za-z0-9.-]+/g] replaced by a dash *)

Lemma replace_unsafe_from s : forall pos,
  Regex.replace_from unsafe_re "-" pos s 0 = squeeze false s /\
  Regex.replace_from unsafe_re "-" pos s
    (Str.run_length (fun c => negb (Chars.is_name_char c)) s) = squeeze true s.
Proof.
  induction s as [|c t IH]; intros pos.
  - split; reflexivity.
  - cbn [Str.run_length squeeze].
    destruct (Chars.is_name_char c) eqn:Hc; cbn [negb].
    + assert (Regex.replace_from unsafe_re "-" pos (String c t) 0 =
              String c (squeeze false t)) as E.
      { cbn [Regex.replace_from]. unfold unsafe_re at 1.
        rewrite match_at_plus. cbn [Str.run_length]. rewrite Hc. cbn [negb].
        f_equal. apply IH. }
      split; exact E.
    + split.
      * cbn [Regex.replace_from]. unfold unsafe_re at 1.
        rewrite match_at_plus. cbn [Str.run_length]. rewrite Hc. cbn [negb].
        replace (pos + S _ =? pos)%nat with false
          by (symmetry; apply Nat.eqb_neq; lia).
        cbn [String.append]. f_equal.
        replace (pos + S _ - pos - 1)
          with (Str.run_length (fun c => negb (Chars.is_name_char c)) t) by lia.
        apply IH.
      * cbn [Regex.replace_from]. apply IH.
Qed.

Lemma replace_unsafe s : Regex.replace unsafe_re "-" s = squeeze false s.
Proof. apply replace_unsafe_from. Qed.

Lemma squeeze_name_chars s : forall b,
  Str.all Chars.is_name_char (squeeze b s) = true.
Proof.
  induction s as [|c t IH]; intros b; simpl; [reflexivity|].
  destruct (Chars.is_name_char c) eqn:Hc; simpl.
  - rewrite Hc, IH. reflexivity.
  - destruct b; simpl; rewrite IH; reflexivity.
Qed.

Lemma squeeze_fixed s : forall b,
  Str.all Chars.is_name_char s = true -> squeeze b s = s.
Proof.
  induction s as [|c t IH]; intros b H; simpl in *; [reflexivity|].
  apply andb_true_iff in H as [Hc Ht]. rewrite Hc. f_equal. auto.
Qed.

(** *** [/^[-_.]+|-+$/g] replaced by the empty string *)

Lemma dashes_then_eol s : forall pos,
  flat_map (Regex.rmatch Regex.Eol) (Regex.run_plus Chars.is_dash pos s) =
  if Str.all Chars.is_dash s && negb (Str.is_empty s)
  then [(pos + String.length s, EmptyString)] else [].
Proof.
  induction s as [|c t IH]; intros pos; simpl.
  - reflexivity.
  - destruct (Chars.is_dash c); simpl; [|reflexivity].
    rewrite flat_map_app, IH. simpl.
    destruct t as [|d u]; simpl.
    + replace (pos + 1) with (S pos) by lia. reflexivity.
    + rewrite andb_true_r, app_nil_r.
      destruct (Chars.is_dash d && Str.all Chars.is_dash u); [|reflexivity].
      repeat f_equal. lia.
Qed.

Lemma not_sep_not_dash c : Chars.is_sep c = false -> Chars.is_dash c = false.
Proof.
  destruct (Chars.is_dash c) eqn:E; [|reflexivity].
  rewrite (sep_is_name_or_underscore c E). discriminate.
Qed.

Lemma match_at_trim_start s :
  Regex.match_at trim_re 0 s =
  match Str.run_length Chars.is_sep s with
  | 0 => None
  | S n => Some (S n)
  end.
Proof.
  unfold Regex.match_at, trim_re.
  cbn [Regex.rmatch fst snd Nat.eqb flat_map].
  rewrite dashes_then_eol, app_nil_r.
  pose proof (run_plus_head Chars.is_sep s 0) as H.
  destruct (Regex.run_plus Chars.is_sep 0 s) as [|[e r] l].
  - rewrite H. cbn [app].
    destruct s as [|c t]; [reflexivity|].
    simpl in H. destruct (Chars.is_sep c) eqn:Hc; [discriminate|].
    simpl. rewrite (not_sep_not_dash c Hc). reflexivity.
  - destruct H as [-> H]. cbn [app].
    destruct (Str.run_length Chars.is_sep s); [lia|reflexivity].
Qed.

Lemma match_at_trim_later pos s :
  0 < pos ->
  Regex.match_at trim_re pos s =
  if Str.all Chars.is_dash s && negb (Str.is_empty s)
  then Some (pos + String.length s) else None.
Proof.
  intros Hpos. unfold Regex.match_at, trim_re.
  cbn [Regex.rmatch fst snd].
  replace (pos =? 0)%nat with false by (symmetry; apply Nat.eqb_neq; lia).
  cbn [flat_map app]. rewrite dashes_then_eol.
  destruct (Str.all Chars.is_dash s && negb (Str.is_empty s)); reflexivity.
Qed.

Lemma drop_all s : Str.drop (String.length s) s = EmptyString.
Proof. induction s; simpl; auto. Qed.

Lemma replace_trim_later s : forall pos,
  0 < pos -> Regex.replace_from trim_re "" pos s 0 = strip_dashes s.
Proof.
  induction s as [|c t IH]; intros pos Hpos.
  - cbn [Regex.replace_from]. rewrite match_at_trim_later by exact Hpos.
    reflexivity.
  - cbn [Regex.replace_from strip_dashes].
    rewrite match_at_trim_later by exact Hpos.
    destruct (Str.all Chars.is_dash (String c t)) eqn:Hall; cbn [Str.is_empty negb andb].
    + replace (pos + String.length (String c t) =? pos)%nat with false
        by (symmetry; apply Nat.eqb_neq; simpl; lia).
      cbn [String.append].
      replace (pos + String.length (String c t) - pos - 1)
        with (String.length t) by (simpl; lia).
      rewrite replace_from_skip by lia. rewrite drop_all.
      cbn [Regex.replace_from]. rewrite match_at_trim_later by lia.
      reflexivity.
    + f_equal. apply IH. lia.
Qed.

Lemma replace_trim s : Regex.replace trim_re "" s = trim s.
Proof.
  unfold Regex.replace, trim.
  destruct s as [|c t].
  - reflexivity.
  - cbn [Regex.replace_from]. rewrite match_at_trim_start.
    cbn [Str.run_length Str.drop_while].
    destruct (Chars.is_sep c) eqn:Hc.
    + cbn [Nat.eqb String.append].
      replace (S (Str.run_length Chars.is_sep t) - 0 - 1)
        with (Str.run_length Chars.is_sep t) by lia.
      rewrite replace_from_skip by apply run_length_le.
      rewrite drop_run_length. apply replace_trim_later. lia.
    + cbn [strip_dashes Str.all]. rewrite (not_sep_not_dash c Hc).
      cbn [andb]. f_equal. apply replace_trim_later. lia.
Qed.

(** *** Properties of the closed forms *)

Lemma all_drop_while p q s :
  Str.all p s = true -> Str.all p (Str.drop_while q s) = true.
Proof.
  induction s as [|c t IH]; simpl; [reflexivity|].
  intros H. apply andb_true_iff in H as [Hc Ht].
  destruct (q c); [auto|]. simpl. rewrite Hc, Ht. reflexivity.
Qed.

Lemma all_strip_dashes p s :
  Str.all p s = true -> Str.all p (strip_dashes s) = true.
Proof.
  induction s as [|c t IH]; [reflexivity|].
  intros H. cbn [strip_dashes].
  destruct (Str.all Chars.is_dash (String c t)); [reflexivity|].
  simpl in *. apply andb_true_iff in H as [Hc Ht].
  rewrite Hc. auto.
Qed.

Lemma first_drop_while p s : Str.first_is p (Str.drop_while p s) = false.
Proof.
  induction s as [|c t IH]; simpl; [reflexivity|].
  destruct (p c) eqn:Hc; [exact IH|]. simpl. exact Hc.
Qed.

Lemma first_strip_dashes s :
  Str.first_is Chars.is_sep s = false ->
  Str.first_is Chars.is_sep (strip_dashes s) = false.
Proof.
  destruct s as [|c t]; [reflexivity|]. cbn [strip_dashes].
  destruct (Str.all Chars.is_dash (String c t)); [reflexivity|].
  intros H. exact H.
Qed.

Lemma last_strip_dashes s : Str.last_is Chars.is_dash (strip_dashes s) = false.
Proof.
  induction s as [|c t IH]; [reflexivity|].
  cbn [strip_dashes].
  destruct (Str.all Chars.is_dash (String c t)) eqn:Hall; [reflexivity|].
  destruct t as [|d u].
  - simpl in *. rewrite andb_true_r in Hall. exact Hall.
  - cbn [strip_dashes] in *.
    destruct (Str.all Chars.is_dash (String d u)) eqn:Hd.
    + simpl. simpl in Hall. simpl in Hd. rewrite Hd, andb_true_r in Hall.
      exact Hall.
    + exact IH.
Qed.

Lemma drop_while_fixed p s :
  Str.first_is p s = false -> Str.drop_while p s = s.
Proof. destruct s as [|c t]; simpl; [reflexivity|]. intros ->. reflexivity. Qed.

Lemma all_dash_last s :
  Str.all Chars.is_dash s = true -> s <> EmptyString ->
  Str.last_is Chars.is_dash s = true.
Proof.
  induction s as [|c t IH]; [congruence|].
  intros H _. simpl in H. apply andb_true_iff in H as [Hc Ht].
  destruct t as [|d u]; [exact Hc|].
  change (Str.last_is Chars.is_dash (String d u) = true).
  apply IH; [exact Ht|discriminate].
Qed.

Lemma strip_dashes_fixed s :
  Str.last_is Chars.is_dash s = false -> strip_dashes s = s.
Proof.
  induction s as [|c t IH]; [reflexivity|].
  intros H. cbn [strip_dashes].
  destruct (Str.all Chars.is_dash (String c t)) eqn:Hall.
  - rewrite all_dash_last in H; [discriminate|exact Hall|discriminate].
  - f_equal. apply IH. destruct t as [|d u]; [reflexivity|exact H].
Qed.

(** *** Lower-casing and the base name *)

Lemma toLowerCase_safe s :
  Str.all Chars.is_name_char s = true ->
  Str.all Chars.is_safe (Str.toLowerCase s) = true.
Proof.
  induction s as [|c t IH]; simpl; [reflexivity|].
  intros H. apply andb_true_iff in H as [Hc Ht].
  rewrite (lower_char_safe c Hc). auto.
Qed.

Lemma toLowerCase_first s :
  Str.first_is Chars.is_sep (Str.toLowerCase s) = Str.first_is Chars.is_sep s.
Proof. destruct s; simpl; [reflexivity|apply lower_char_sep]. Qed.

Lemma toLowerCase_last s :
  Str.last_is Chars.is_dash (Str.toLowerCase s) = Str.last_is Chars.is_dash s.
Proof.
  induction s as [|c t IH]; [reflexivity|].
  destruct t as [|d u]; [apply lower_char_dash|exact IH].
Qed.

Lemma toLowerCase_fixed s :
  Str.all Chars.is_safe s = true -> Str.toLowerCase s = s.
Proof.
  unfold Str.toLowerCase.
  induction s as [|c t IH]; cbn [Str.map Str.all]; [reflexivity|].
  intros H. apply andb_true_iff in H as [Hc Ht].
  rewrite (lower_char_fixed c Hc), IH by exact Ht.
  reflexivity.
Qed.

Lemma all_weaken (p q : ascii -> bool) s :
  (forall c, p c = true -> q c = true) ->
  Str.all p s = true -> Str.all q s = true.
Proof.
  intros Hpq. induction s as [|c t IH]; simpl; [reflexivity|].
  intros H. apply andb_true_iff in H as [Hc Ht].
  rewrite (Hpq c Hc). auto.
Qed.

Lemma split_without_separator s :
  Str.all (fun c => negb (Chars.is_slash c)) s = true ->
  Str.split "/" s = [s].
Proof.
  induction s as [|c t IH]; simpl; [reflexivity|].
  intros H. apply andb_true_iff in H as [Hc Ht].
  unfold Chars.is_slash in Hc. apply negb_true_iff in Hc. rewrite Hc.
  rewrite IH by exact Ht. reflexivity.
Qed.

Lemma basename_without_separator s :
  Str.all (fun c => negb (Chars.is_slash c)) s = true ->
  Path.basename s = s.
Proof.
  intros H. unfold Path.basename. rewrite split_without_separator by exact H.
  destruct s; reflexivity.
Qed.

(** The three facts of the name: its alphabet, its first and its last
    character. *)
Lemma createAppName_shape p :
  Str.all Chars.is_safe (createAppName p) = true /\
  Str.first_is Chars.is_sep (createAppName p) = false /\
  Str.last_is Chars.is_dash (createAppName p) = false.
Proof.
  unfold createAppName. rewrite replace_unsafe, replace_trim.
  set (b := squeeze false (Path.basename p)).
  repeat split.
  - apply toLowerCase_safe. unfold trim.
    apply all_strip_dashes, all_drop_while, squeeze_name_chars.
  - rewrite toLowerCase_first. unfold trim.
    apply first_strip_dashes, first_drop_while.
  - rewrite toLowerCase_last. unfold trim. apply last_strip_dashes.
Qed.

Lemma createAppName_fixed s :
  Str.all Chars.is_safe s = true ->
  Str.first_is Chars.is_sep s = false ->
  Str.last_is Chars.is_dash s = false ->
  createAppName s = s.
Proof.
  intros Hall Hfirst Hlast. unfold createAppName.
  rewrite basename_without_separator.
  2:{ apply (all_weaken Chars.is_safe); [|exact Hall].
      intros c Hc. rewrite (safe_not_slash c Hc). reflexivity. }
  rewrite replace_unsafe, replace_trim.
  rewrite squeeze_fixed
    by (apply (all_weaken Chars.is_safe); [apply safe_is_name_char|exact Hall]).
  unfold trim. rewrite drop_while_fixed by exact Hfirst.
  rewrite strip_dashes_fixed by exact Hlast.
  apply toLowerCase_fixed, Hall.
Qed.

(** C5. For every path string the app name consists of characters of
    [[a-z0-9.-]] only, does not begin with a dash, an underscore or a dot,
    and does not end with a dash; the same holds of the name [main] passes
    on, fallback included. *)
Theorem createAppName_charset :
  (forall p : string,
     Str.all Chars.is_safe (createAppName p) = true /\
     Str.first_is Chars.is_sep (createAppName p) = false /\
     Str.last_is Chars.is_dash (createAppName p) = false) /\
  (forall (w : World) (program : Program),
     Str.all Chars.is_safe (appName w program) = true /\
     Str.first_is Chars.is_sep (appName w program) = false /\
     Str.last_is Chars.is_dash (appName w program) = false).
Proof.
  split.
  - exact createAppName_shape.
  - intros w program. unfold appName, Str.or_else.
    destruct (Str.is_empty _).
    + repeat split; reflexivity.
    + apply createAppName_shape.
Qed.

(** C6. Normalising a normalised name changes nothing:
    [createAppName (createAppName p) = createAppName p] for every [p], and
    likewise when the [hello-world] fallback is counted in. *)
Theorem createAppName_idempotent :
  (forall p : string, createAppName (createAppName p) = createAppName p) /\
  (forall p : string,
     let n := Str.or_else (createAppName p) "hello-world" in
     Str.or_else (createAppName n) "hello-world" = n).
Proof.
  assert (forall p, createAppName (createAppName p) = createAppName p) as Hidem.
  { intros p. destruct (createAppName_shape p) as (Hall & Hfirst & Hlast).
    apply createAppName_fixed; assumption. }
  split; [exact Hidem|].
  intros p. cbv zeta. unfold Str.or_else at 2 3.
  destruct (createAppName p) eqn:E; cbn [Str.is_empty].
  - reflexivity.
  - rewrite <- E, Hidem, E. reflexivity.
Qed.

(** ** The confirmation test *)

Lemma test_from_suffix r s :
  (forall pos, Regex.match_at r pos s <> None) ->
  forall a pos, Regex.test_from r pos (a ++ s) = true.
Proof.
  intros Hs. induction a as [|c a IH]; intros pos.
  - simpl. specialize (Hs pos).
    destruct s; simpl; destruct (Regex.match_at r pos _); congruence.
  - simpl. destruct (Regex.match_at r pos _); [reflexivity|apply IH].
Qed.

(** C2. The test accepts more than the four words: every line that begins
    with [y], holds [yes] or [ok] anywhere, or ends with [true] is taken as
    an affirmative answer, for instance [yellow], [not ok], [oh yes please]
    and [untrue]. *)
Theorem confirm_answer_partial_match :
  (forall rest, confirm_answer ("y" ++ rest) = true) /\
  (forall a b, confirm_answer (a ++ "yes" ++ b) = true) /\
  (forall a b, confirm_answer (a ++ "ok" ++ b) = true) /\
  (forall a, confirm_answer (a ++ "true") = true) /\
  confirm_answer "yellow" = true /\
  confirm_answer "not ok" = true /\
  confirm_answer "oh yes please" = true /\
  confirm_answer "untrue" = true /\
  confirm_answer "y" = true /\
  confirm_answer "YES" = true /\
  confirm_answer "Ok" = true /\
  confirm_answer "true" = true /\
  confirm_answer "n" = false /\
  confirm_answer "" = false.
Proof.
  split; [intros rest; reflexivity|].
  split; [intros a b; apply test_from_suffix;
          intros [|pos]; vm_compute; discriminate|].
  split; [intros a b; apply test_from_suffix;
          intros [|pos]; vm_compute; discriminate|].
  split; [intros a; apply test_from_suffix;
          intros [|pos]; vm_compute; discriminate|].
  repeat split; reflexivity.
Qed.

(** ** Resolving the destination *)

Lemma str_append_assoc (a b c : string) : ((a ++ b) ++ c = a ++ (b ++ c))%string.
Proof. induction a as [|x a IH]; simpl; [reflexivity|]. rewrite IH. reflexivity. Qed.

Lemma split_not_nil sep s : Str.split sep s <> [].
Proof.
  destruct s as [|c t]; simpl; [discriminate|].
  destruct (Ascii.eqb c sep); [discriminate|].
  destruct (Str.split sep t); discriminate.
Qed.

Lemma split_app sep a b :
  Str.split sep (a ++ String sep b) = (Str.split sep a ++ Str.split sep b)%list.
Proof.
  induction a as [|c a IH]; simpl.
  - rewrite Ascii.eqb_refl. reflexivity.
  - destruct (Ascii.eqb c sep); [rewrite IH; reflexivity|].
    rewrite IH. pose proof (split_not_nil sep a) as Hn.
    destruct (Str.split sep a); [congruence|reflexivity].
Qed.

Lemma plain_segment_no_slash s :
  plain_segment s = true ->
  Str.all (fun c => negb (Chars.is_slash c)) s = true.
Proof.
  unfold plain_segment. intros H.
  repeat (apply andb_true_iff in H as [H ?]). assumption.
Qed.

Lemma split_concat segs :
  segs <> [] -> forallb plain_segment segs = true ->
  Str.split "/" (String.concat "/" segs) = segs.
Proof.
  induction segs as [|p rest IH]; [congruence|].
  intros _ H. simpl in H. apply andb_true_iff in H as [Hp Hrest].
  destruct rest as [|q rest].
  - simpl. apply split_without_separator, plain_segment_no_slash, Hp.
  - change (String.concat "/" (p :: q :: rest))
      with (p ++ String "/" (String.concat "/" (q :: rest)))%string.
    rewrite split_app, IH by (congruence || exact Hrest).
    rewrite split_without_separator by apply plain_segment_no_slash, Hp.
    reflexivity.
Qed.

Lemma seg_step_plain allow stack s :
  plain_segment s = true -> Path.seg_step allow stack s = (stack ++ [s])%list.
Proof.
  unfold plain_segment, Path.seg_step. intros H.
  repeat (apply andb_true_iff in H as [H ?]).
  repeat match goal with
         | E : negb _ = true |- _ => apply negb_true_iff in E; rewrite E
         end.
  reflexivity.
Qed.

Lemma fold_seg_step_plain allow segs : forall stack,
  forallb plain_segment segs = true ->
  fold_left (Path.seg_step allow) segs stack = (stack ++ segs)%list.
Proof.
  induction segs as [|p rest IH]; intros stack H; simpl.
  - rewrite app_nil_r. reflexivity.
  - simpl in H. apply andb_true_iff in H as [Hp Hrest].
    rewrite seg_step_plain by exact Hp. rewrite IH by exact Hrest.
    rewrite <- app_assoc. reflexivity.
Qed.

Lemma resolve_relative cwd p :
  Str.is_empty p = false -> Path.isAbsolute p = false ->
  Str.is_empty cwd = false -> Path.isAbsolute cwd = true ->
  Path.resolve cwd p =
  ("/" ++ Path.normalizeString (cwd ++ "/" ++ p ++ "/") false)%string.
Proof.
  intros Hp Hrel Hcwd Habs. unfold Path.resolve.
  rewrite Hp, Hrel, Hcwd, Habs. reflexivity.
Qed.

Lemma normalize_absolute_dot segs :
  forallb plain_segment segs = true ->
  Path.normalizeString (absolute_of segs ++ "/" ++ "." ++ "/") false =
  String.concat "/" segs.
Proof.
  intros H. unfold Path.normalizeString, absolute_of. f_equal.
  change ("/" ++ String.concat "/" segs)%string
    with ("" ++ String "/" (String.concat "/" segs))%string.
  rewrite str_append_assoc.
  change (String "/" (String.concat "/" segs) ++ "/" ++ "." ++ "/")%string
    with (String "/" (String.concat "/" segs ++ String "/" "./")).
  rewrite split_app, split_app.
  change (Str.split "/" "./") with ["."; ""].
  change (Str.split "/" "") with [""].
  rewrite !fold_left_app. cbn [fold_left].
  change (Path.seg_step false [] "") with (@nil string).
  destruct segs as [|p rest].
  - reflexivity.
  - rewrite split_concat by (congruence || exact H).
    rewrite fold_seg_step_plain by exact H. reflexivity.
Qed.

Lemma resolve_dot segs :
  forallb plain_segment segs = true ->
  Path.resolve (absolute_of segs) "." = absolute_of segs.
Proof.
  intros H. rewrite resolve_relative by reflexivity.
  rewrite normalize_absolute_dot by exact H. reflexivity.
Qed.

Lemma split_segments_no_slash s :
  Forall (fun seg => Str.all (fun c => negb (Chars.is_slash c)) seg = true)
         (Str.split "/" s).
Proof.
  induction s as [|c t IH]; simpl.
  - repeat constructor.
  - destruct (Ascii.eqb c "/") eqn:Hc.
    + constructor; [reflexivity|exact IH].
    + destruct (Str.split "/" t) as [|h r].
      * repeat constructor. simpl. unfold Chars.is_slash. rewrite Hc. reflexivity.
      * inversion IH; subst. constructor; [|assumption].
        simpl. unfold Chars.is_slash at 1. rewrite Hc. assumption.
Qed.

Lemma basename_no_slash p :
  Str.all (fun c => negb (Chars.is_slash c)) (Path.basename p) = true.
Proof.
  unfold Path.basename.
  pose proof (split_segments_no_slash p) as H.
  induction H as [|seg l Hseg Hl IH]; simpl; [reflexivity|].
  destruct (Str.is_empty seg); simpl; [exact IH|].
  destruct (filter _ l); [exact Hseg|exact IH].
Qed.

Lemma createAppName_basename p :
  createAppName (Path.basename p) = createAppName p.
Proof.
  unfold createAppName.
  rewrite (basename_without_separator _ (basename_no_slash p)). reflexivity.
Qed.

Lemma plain_segment_not_empty s :
  plain_segment s = true -> Str.is_empty s = false.
Proof.
  unfold plain_segment. intros H.
  repeat (apply andb_true_iff in H as [H ?]).
  apply negb_true_iff. assumption.
Qed.

Lemma filter_plain segs :
  forallb plain_segment segs = true ->
  filter (fun a => negb (Str.is_empty a)) segs = segs.
Proof.
  induction segs as [|p rest IH]; simpl; [reflexivity|].
  intros H. apply andb_true_iff in H as [Hp Hrest].
  rewrite (plain_segment_not_empty p Hp). simpl. rewrite IH by exact Hrest.
  reflexivity.
Qed.

Lemma basename_absolute segs :
  forallb plain_segment segs = true ->
  Path.basename (absolute_of segs) = last segs EmptyString.
Proof.
  intros H. unfold Path.basename, absolute_of.
  change ("/" ++ String.concat "/" segs)%string
    with ("" ++ String "/" (String.concat "/" segs))%string.
  rewrite split_app. change (Str.split "/" "") with [""].
  cbn [app filter Str.is_empty negb].
  destruct segs as [|p rest]; [reflexivity|].
  rewrite split_concat by (congruence || exact H).
  rewrite filter_plain by exact H. reflexivity.
Qed.

Lemma or_else_cases a b :
  (a = EmptyString -> Str.or_else a b = b) /\
  (a <> EmptyString -> Str.or_else a b = a).
Proof.
  unfold Str.or_else. destruct a; simpl; split; congruence.
Qed.

(** C10. With [process.cwd()] an absolute path in normal form, the app name
    is computed from the base name of the resolved destination, the
    [hello-world] fallback stands in exactly when that computation gives the
    empty string, and without a destination argument the destination is
    [.], it resolves to the working directory, and the name is the
    normalised last segment of the working directory (while the raw
    argument [.] alone normalises to the empty string). *)
Theorem appName_from_resolved_path
    (w : World) (program : Program) (segs : list string)
    (Hcwd : cwd w = absolute_of segs)
    (Hplain : forallb plain_segment segs = true) :
  let resolved := Path.resolve (cwd w) (destinationPath program) in
  appName w program =
    Str.or_else (createAppName (Path.basename resolved)) "hello-world" /\
  (createAppName resolved = "" -> appName w program = "hello-world") /\
  (createAppName resolved <> "" -> appName w program = createAppName resolved) /\
  (args program = [] ->
     destinationPath program = "." /\
     resolved = cwd w /\
     createAppName (destinationPath program) = "" /\
     appName w program =
       Str.or_else (createAppName (last segs "")) "hello-world").
Proof.
  intros resolved. unfold appName. fold resolved.
  rewrite createAppName_basename.
  split; [reflexivity|].
  split; [apply or_else_cases|].
  split; [apply or_else_cases|].
  intros Hargs.
  assert (destinationPath program = ".") as Hdot
    by (unfold destinationPath; rewrite Hargs; reflexivity).
  assert (resolved = cwd w) as Hres.
  { unfold resolved. rewrite Hdot, Hcwd. apply resolve_dot, Hplain. }
  repeat split.
  - exact Hdot.
  - exact Hres.
  - rewrite Hdot. reflexivity.
  - rewrite Hres, Hcwd.
    rewrite <- (createAppName_basename (absolute_of segs)).
    rewrite basename_absolute by exact Hplain. reflexivity.
Qed.

Lemma appName_from_resolved_path_witness :
  cwd (sample_world (Entries []) None) = absolute_of ["home"; "me"; "my-site"] /\
  forallb plain_segment ["home"; "me"; "my-site"] = true /\
  args (flags false false false false false []) = [] /\
  appName (sample_world (Entries []) None) (flags false false false false false []) =
    Str.or_else (createAppName "my-site") "hello-world" /\
  appName (sample_world (Entries []) None) (flags false false false false false []) = "my-site".
Proof.
  split; [reflexivity|]. split; [reflexivity|]. split; [reflexivity|].
  split; [|reflexivity].
  apply (appName_from_resolved_path (sample_world (Entries []) None)
           (flags false false false false false [])
           ["home"; "me"; "my-site"] eq_refl eq_refl).
  reflexivity.
Defined.

(** ** Running the generator on a packaged tool *)

Lemma bind_ok {A B : Type} (t : list event) (a : A) (f : A -> M B) :
  bind (t, Ok a) f = ((t ++ fst (f a))%list, snd (f a)).
Proof. unfold bind. destruct (f a). reflexivity. Qed.

Lemma mkdir_run base dir : mkdir base dir = (made base dir, Ok tt).
Proof. reflexivity. Qed.

Lemma write_run file d mode :
  write file d mode =
  (written file d match mode with Some (S m) => S m | _ => MODE_0666 end, Ok tt).
Proof. reflexivity. Qed.

Lemma loadTemplate_ok w name :
  has_ejs w name = true -> loadTemplate w name = ([], Ok (ejs_text w name)).
Proof.
  unfold has_ejs, loadTemplate, readFileSync, ejs_text.
  destruct (readFile w _); [reflexivity|discriminate].
Qed.

Lemma copyTemplate_ok w from to :
  has_template w from = true ->
  copyTemplate w from to = (copied w from to, Ok tt).
Proof.
  unfold has_template, copyTemplate, readFileSync, copied, template_text.
  destruct (readFile w _); [reflexivity|discriminate].
Qed.

Lemma forEach_copy_ok w fromDir toDir names :
  forallb (fun name => has_template w (Path.join [fromDir; name])) names = true ->
  forEach names
    (fun name =>
       copyTemplate w (Path.join [fromDir; name]) (Path.join [toDir; name])) =
  (flat_map
     (fun name => copied w (Path.join [fromDir; name]) (Path.join [toDir; name]))
     names, Ok tt).
Proof.
  induction names as [|n rest IH]; intros H; [reflexivity|].
  simpl in H. apply andb_true_iff in H as [Hn Hrest].
  cbn [forEach flat_map]. rewrite copyTemplate_ok by exact Hn.
  rewrite bind_ok, IH by exact Hrest. reflexivity.
Qed.

Lemma copyTemplateMulti_ok w fromDir toDir nameGlob :
  has_family w fromDir nameGlob = true ->
  copyTemplateMulti w fromDir toDir nameGlob =
  (copied_family w fromDir toDir nameGlob, Ok tt).
Proof.
  unfold has_family, copyTemplateMulti, readdirSync, copied_family, matching, entries.
  destruct (readdir w _) as [names|code]; [|discriminate].
  intros H. unfold ret. rewrite bind_ok. cbn [app].
  rewrite forEach_copy_ok by exact H. reflexivity.
Qed.

Lemma bind_run {A B : Type} (m : M A) (f : A -> M B) t a t' r :
  m = (t, Ok a) -> f a = (t', r) -> bind m f = ((t ++ t')%list, r).
Proof. intros -> H. unfold bind. rewrite H. reflexivity. Qed.

(** Runs a chain of binds whose steps are known to return. *)
Ltac run_chain :=
  lazymatch goal with
  | |- bind _ _ = _ =>
      eapply bind_run; [run_chain|cbv beta iota zeta; run_chain]
  | |- _ => reflexivity
  end.

Lemma createApplication_run w program name dir :
  packaged w = true ->
  createApplication w program name dir = (assembly w program name dir, Ok tt).
Proof.
  unfold packaged. intros H.
  repeat (apply andb_true_iff in H as [H ?]).
  unfold createApplication.
  rewrite !loadTemplate_ok by assumption.
  rewrite !copyTemplateMulti_ok by assumption.
  rewrite !copyTemplate_ok by assumption.
  rewrite !mkdir_run, !write_run.
  unfold assembly, guidance, manifest.
  destruct program as [g p d t f a]; cbn [git pg dev test force args].
  destruct g, p, t, (String.eqb dir "."), (launchedFromCmd w);
    cbn [negb when]; cbv beta iota zeta;
    (eapply eq_trans; [run_chain|reflexivity]).
Qed.

(** ** Objects and their sorting *)

Lemma get_of_key k o : In k (Obj.keys o) -> exists v, Obj.get k o = Some v.
Proof.
  induction o as [|[k' v'] r IH]; simpl; [tauto|].
  intros [->|H].
  - rewrite String.eqb_refl. eauto.
  - destruct (String.eqb k' k); eauto.
Qed.

Lemma set_fresh_key k v o :
  ~ In k (Obj.keys o) -> Obj.keys (Obj.set k v o) = (Obj.keys o ++ [k])%list.
Proof.
  induction o as [|[k' v'] r IH]; simpl; [reflexivity|].
  intros H. destruct (String.eqb_spec k' k) as [->|Hne]; [tauto|].
  simpl. rewrite IH by tauto. reflexivity.
Qed.

Lemma set_keys_in k v o x :
  In x (Obj.keys (Obj.set k v o)) <-> x = k \/ In x (Obj.keys o).
Proof.
  induction o as [|[k' v'] r IH]; simpl; [intuition congruence|].
  destruct (String.eqb_spec k' k) as [->|Hne]; simpl; [intuition congruence|].
  rewrite IH. intuition congruence.
Qed.

Lemma set_keys_nodup k v o :
  NoDup (Obj.keys o) -> NoDup (Obj.keys (Obj.set k v o)).
Proof.
  induction o as [|[k' v'] r IH]; simpl; intros H.
  - constructor; [simpl; tauto|constructor].
  - inversion H as [|? ? Hnotin Hr]; subst.
    destruct (String.eqb_spec k' k) as [->|Hne]; simpl.
    + constructor; assumption.
    + constructor; [|auto].
      rewrite set_keys_in. intuition congruence.
Qed.

Lemma copy_keys input : forall l output,
  NoDup (Obj.keys output ++ l) ->
  (forall k, In k l -> In k (Obj.keys input)) ->
  Obj.keys
    (fold_left
       (fun output key =>
          match Obj.get key input with
          | Some v => Obj.set key v output
          | None => output
          end) l output) = (Obj.keys output ++ l)%list.
Proof.
  induction l as [|k rest IH]; intros output Hnd Hin; simpl.
  - rewrite app_nil_r. reflexivity.
  - destruct (get_of_key k input (Hin k (or_introl eq_refl))) as [v Hv].
    rewrite Hv.
    assert (~ In k (Obj.keys output)) as Hfresh.
    { intros Hk. apply NoDup_remove_2 in Hnd. apply Hnd.
      apply in_or_app. left. exact Hk. }
    rewrite IH.
    + rewrite set_fresh_key by exact Hfresh. rewrite <- app_assoc. reflexivity.
    + rewrite set_fresh_key by exact Hfresh. rewrite <- app_assoc. exact Hnd.
    + intros k' Hk'. apply Hin. right. exact Hk'.
Qed.

(** The keys of a sorted object are the sorted keys of its argument. *)
Lemma sortedObject_keys input :
  NoDup (Obj.keys input) ->
  Obj.keys (sortedObject input) = StringSort.sort (Obj.keys input).
Proof.
  intros Hnd. unfold sortedObject.
  pose proof (StringSort.Permuted_sort (Obj.keys input)) as Hperm.
  rewrite copy_keys; [reflexivity| |].
  - simpl. eapply Permutation_NoDup; eassumption.
  - intros k Hk. eapply Permutation_in; [apply Permutation_sym|]; eassumption.
Qed.

Lemma sortedObject_sorted input :
  NoDup (Obj.keys input) ->
  Sorted string_le (Obj.keys (sortedObject input)).
Proof.
  intros Hnd. rewrite sortedObject_keys by exact Hnd.
  exact (StringSort.Sorted_sort (Obj.keys input)).
Qed.

(** Every object the generator builds by assignments has distinct keys. *)
Lemma manifest_dependencies_sorted program name :
  Sorted string_le (Obj.keys (dependencies (manifest program name))).
Proof.
  unfold manifest, pkg_sort, with_dependencies.
  cbn [dependencies]. apply sortedObject_sorted.
  destruct program as [g p d t f a].
  unfold pkg_pg, pkg_dev, pkg_middleware. cbn [git pg dev test force args].
  destruct p, d, t; cbn; repeat constructor; simpl; intuition discriminate.
Qed.

(** ** The manifest that is written *)

Ltac find_event :=
  solve [ repeat first
            [ left; reflexivity
            | apply in_or_app; left; solve [find_event]
            | apply in_or_app; right
            | right ] ].

Lemma assembly_writes_manifest w program name dir :
  In (WriteFile (Path.join [dir; "package.json"])
        (Text (Json.stringify (manifest program name) ++ Json.nl)) MODE_0666)
     (assembly w program name dir).
Proof.
  unfold assembly.
  do 15 (apply in_or_app; right). apply in_or_app; left. left. reflexivity.
Qed.

Lemma main_on_empty w program :
  readdir w (destinationPath program) = Entries [] ->
  main w program =
  createApplication w program (appName w program) (destinationPath program).
Proof. unfold main, emptyDirectory. intros ->. reflexivity. Qed.

Lemma not_sorted_devDependencies :
  ~ Sorted string_le ["dotenv"; "nodemon"; "jest"; "supertest"].
Proof.
  intros H. inversion H as [|? ? H1 _]; subst.
  inversion H1 as [|? ? _ H2]; subst.
  inversion H2 as [|? ? H3]; subst. discriminate H3.
Qed.

(** C1. The dependency keys are sorted for every set of flags, but the
    devDependencies keys are not: they leave in insertion order.  With the
    dev and test flags the manifest written to [package.json] lists
    [dotenv], [nodemon], [jest], [supertest], and in the text [nodemon]
    stands before [jest]. *)
Theorem manifest_key_order :
  (forall program name,
     Sorted string_le (Obj.keys (dependencies (manifest program name)))) /\
  let program := flags false false true true false [] in
  let w := sample_world (Entries []) None in
  let text := Json.stringify (manifest program "my-site") in
  In (WriteFile "package.json" (Text (text ++ Json.nl)) MODE_0666)
     (trace (main w program)) /\
  Obj.keys (devDependencies (manifest program "my-site")) =
    ["dotenv"; "nodemon"; "jest"; "supertest"] /\
  ~ Sorted string_le ["dotenv"; "nodemon"; "jest"; "supertest"] /\
  String.index 0 (Json.quote "nodemon") text = Some 467 /\
  String.index 0 (Json.quote "jest") text = Some 493.
Proof.
  split; [exact manifest_dependencies_sorted|].
  cbv zeta. split.
  - rewrite main_on_empty by reflexivity.
    rewrite createApplication_run by reflexivity.
    exact (assembly_writes_manifest _ _ "my-site" ".").
  - split; [reflexivity|]. split; [exact not_sorted_devDependencies|].
    split; vm_compute; reflexivity.
Qed.

(** C3 as stated fails: with destination [.], an empty directory and no
    flag, the dependency keys of the manifest written are not just [debug]
    and [express]. *)
Lemma no_flags_dependencies_counterexample :
  let program := flags false false false false false ["."] in
  let w := sample_world (Entries []) None in
  In (WriteFile "package.json"
        (Text (Json.stringify (manifest program (appName w program)) ++ Json.nl))
        MODE_0666)
     (trace (main w program)) /\
  Obj.keys (dependencies (manifest program (appName w program))) =
    ["cookie-parser"; "cors"; "debug"; "express"; "morgan"] /\
  Obj.keys (dependencies (manifest program (appName w program))) <>
    ["debug"; "express"].
Proof.
  cbv zeta. split.
  - rewrite main_on_empty by reflexivity.
    rewrite createApplication_run by reflexivity.
    exact (assembly_writes_manifest _ _ _ ".").
  - split; [reflexivity|]. vm_compute. discriminate.
Qed.

(** C3, amended. With destination [.], an empty directory, a packaged tool
    and none of the git, pg, dev and test flags, the manifest written to
    [package.json] has exactly [cookie-parser], [cors], [debug], [express]
    and [morgan] as its dependency keys, in this (sorted) order; [pg] is not
    among them. *)
Theorem no_flags_dependencies
    (w : World) (program : Program)
    (Hpackaged : packaged w = true)
    (Hdest : destinationPath program = ".")
    (Hempty : readdir w "." = Entries [])
    (Hgit : git program = false) (Hpg : pg program = false)
    (Hdev : dev program = false) (Htest : test program = false) :
  let m := manifest program (appName w program) in
  In (WriteFile "package.json" (Text (Json.stringify m ++ Json.nl)) MODE_0666)
     (trace (main w program)) /\
  Obj.keys (dependencies m) =
    ["cookie-parser"; "cors"; "debug"; "express"; "morgan"] /\
  Sorted string_le (Obj.keys (dependencies m)) /\
  ~ In "pg" (Obj.keys (dependencies m)).
Proof.
  cbv zeta.
  assert (Obj.keys (dependencies (manifest program (appName w program))) =
          ["cookie-parser"; "cors"; "debug"; "express"; "morgan"]) as Hkeys.
  { unfold manifest, pkg_pg, pkg_dev. rewrite Hpg, Hdev, Htest. reflexivity. }
  split.
  - rewrite main_on_empty by (rewrite Hdest; exact Hempty).
    rewrite createApplication_run by exact Hpackaged.
    rewrite Hdest.
    exact (assembly_writes_manifest w program (appName w program) ".").
  - split; [exact Hkeys|]. split.
    + apply manifest_dependencies_sorted.
    + rewrite Hkeys. simpl. intuition discriminate.
Qed.

Lemma no_flags_dependencies_witness :
  packaged (sample_world (Entries []) None) = true /\
  destinationPath (flags false false false false false []) = "." /\
  In (WriteFile "package.json"
        (Text (Json.stringify
                 (manifest (flags false false false false false []) "my-site")
               ++ Json.nl)) MODE_0666)
     (trace (main (sample_world (Entries []) None)
                  (flags false false false false false []))) /\
  Obj.keys (dependencies
              (manifest (flags false false false false false []) "my-site")) =
    ["cookie-parser"; "cors"; "debug"; "express"; "morgan"].
Proof.
  split; [reflexivity|]. split; [reflexivity|].
  pose proof (no_flags_dependencies (sample_world (Entries []) None)
                (flags false false false false false [])
                eq_refl eq_refl eq_refl eq_refl eq_refl eq_refl eq_refl) as H.
  cbv zeta in H. destruct H as (Hw & Hk & _).
  split; [exact Hw|exact Hk].
Defined.

(** C7. On a packaged tool, with the pg and the dev flags set, the manifest
    written to [package.json] has [pg] among its dependencies, [dotenv] and
    [nodemon] among its devDependencies and the dotenv-preloading
    [db:createusers] script, and [models/users.js] and
    [db/scripts/users/createTable.js] are written under the destination. *)
Theorem pg_dev_scaffold
    (w : World) (program : Program) (name dir : string)
    (Hpackaged : packaged w = true)
    (Hpg : pg program = true) (Hdev : dev program = true) :
  let m := manifest program name in
  let t := trace (createApplication w program name dir) in
  In (WriteFile (Path.join [dir; "package.json"])
        (Text (Json.stringify m ++ Json.nl)) MODE_0666) t /\
  Obj.get "pg" (dependencies m) = Some "^8.7.1" /\
  Obj.get "dotenv" (devDependencies m) = Some "^10.0.0" /\
  Obj.get "nodemon" (devDependencies m) = Some "^2.0.15" /\
  Obj.get "db:createusers" (scripts m) =
    Some "node -r dotenv/config ./db/scripts/users/createTable.js" /\
  In (WriteFile (Path.join [dir; "models"; "users.js"])
        (Text (template_text w "models/users.js")) MODE_0666) t /\
  In (WriteFile (Path.join [dir; "db"; "scripts"; "users"; "createTable.js"])
        (Text (template_text w "db/scripts/users/createTable.js")) MODE_0666) t.
Proof.
  cbv zeta. rewrite createApplication_run by exact Hpackaged.
  cbn [trace fst].
  split; [apply assembly_writes_manifest|].
  destruct program as [g p d t f a]. cbn [pg dev] in Hpg, Hdev. subst p d.
  repeat split; try (destruct t; reflexivity);
    unfold assembly; cbn [pg]; find_event.
Qed.

Lemma pg_dev_scaffold_witness :
  let program := flags false true true false false ["my-app"] in
  let w := sample_world (ReadError "ENOENT") None in
  let t := trace (main w program) in
  packaged w = true /\ pg program = true /\ dev program = true /\
  In (WriteFile "my-app/package.json"
        (Text (Json.stringify (manifest program "my-app") ++ Json.nl)) MODE_0666) t /\
  Obj.keys (dependencies (manifest program "my-app")) =
    ["cookie-parser"; "cors"; "debug"; "express"; "morgan"; "pg"] /\
  Obj.keys (devDependencies (manifest program "my-app")) = ["dotenv"; "nodemon"] /\
  In (WriteFile "my-app/models/users.js"
        (Text "// /opt/express-cli/templates/models/users.js") MODE_0666) t /\
  In (WriteFile "my-app/db/scripts/users/createTable.js"
        (Text "// /opt/express-cli/templates/db/scripts/users/createTable.js")
        MODE_0666) t.
Proof.
  cbv zeta.
  pose proof (pg_dev_scaffold (sample_world (ReadError "ENOENT") None)
                (flags false true true false false ["my-app"])
                "my-app" "my-app" eq_refl eq_refl eq_refl) as H.
  cbv zeta in H. destruct H as (Hm & _ & _ & _ & _ & Hu & Hc).
  repeat split; try reflexivity; [exact Hm|exact Hu|exact Hc].
Defined.

(** ** The pre-check *)

(** A line that the confirmation test rejects is honoured: when reading
    the destination gives entries and the force flag is not set, the run
    asks its question, prints [aborting] on the error stream and exits with
    code 1; it creates no directory and writes no file. *)
Lemma rejected_line_aborts
    (w : World) (program : Program) (files : list string) (input : string)
    (Hfiles : readdir w (destinationPath program) = Entries files)
    (Hnonempty : files <> [])
    (Hforce : force program = false)
    (Hline : stdin w = Some input)
    (Hdecline : confirm_answer input = false) :
  main w program =
    ([Question "destination is not empty, continue? [y/N] ";
      Stderr "aborting"; Exit 1], Ok tt) /\
  no_mutation (trace (main w program)) = true.
Proof.
  assert (main w program =
          ([Question "destination is not empty, continue? [y/N] ";
            Stderr "aborting"; Exit 1], Ok tt)) as E.
  { unfold main, emptyDirectory, confirm. rewrite Hfiles, Hforce, Hline, Hdecline.
    destruct files; [congruence|reflexivity]. }
  split; [exact E|]. rewrite E. reflexivity.
Qed.

(** C4. The refusal is not always honoured.  The lines that the
    confirmation test rejects end the run with [aborting] and code 1 before
    anything is created; but [not ok], a refusal, is taken as a yes by that
    test: on a destination that holds entries, without the force flag, the
    run then destroys standard input and performs the whole assembly,
    creating [site] and writing [site/package.json], and never exits with
    code 1.  At end of input the run stops after its question, without
    [aborting] and without an exit code of 1. *)
Theorem refusal_taken_as_yes_creates_files :
  let program := flags false false false false false ["site"] in
  let refusing := sample_world (Entries ["notes.txt"]) (Some "not ok") in
  let silent := sample_world (Entries ["notes.txt"]) None in
  let question := Question "destination is not empty, continue? [y/N] " in
  (forall w p files input,
     readdir w (destinationPath p) = Entries files -> files <> [] ->
     force p = false -> stdin w = Some input ->
     confirm_answer input = false ->
     main w p = ([question; Stderr "aborting"; Exit 1], Ok tt)) /\
  confirm_answer "not ok" = true /\
  main refusing program =
    (question :: StdinDestroy :: assembly refusing program "site" "site",
     Ok tt) /\
  In (Mkdir "site" MODE_0755) (trace (main refusing program)) /\
  In (WriteFile "site/package.json"
        (Text (Json.stringify (manifest program "site") ++ Json.nl)) MODE_0666)
     (trace (main refusing program)) /\
  no_mutation (trace (main refusing program)) = false /\
  forallb (fun e => match e with Exit _ => false | _ => true end)
          (trace (main refusing program)) = true /\
  main silent program = ([question], Ok tt).
Proof.
  cbv zeta.
  split.
  { intros w p files input Hf Hn Hforce Hl Hd.
    exact (proj1 (rejected_line_aborts w p files input Hf Hn Hforce Hl Hd)). }
  split; [reflexivity|].
  assert (main (sample_world (Entries ["notes.txt"]) (Some "not ok"))
               (flags false false false false false ["site"]) =
          (Question "destination is not empty, continue? [y/N] "
           :: StdinDestroy
           :: assembly (sample_world (Entries ["notes.txt"]) (Some "not ok"))
                (flags false false false false false ["site"]) "site" "site",
           Ok tt)) as E.
  { unfold main, emptyDirectory, confirm. cbn [readdir sample_world stdin].
    change (destinationPath (flags false false false false false ["site"]))
      with "site".
    change (appName _ (flags false false false false false ["site"]))
      with "site".
    rewrite createApplication_run by reflexivity. reflexivity. }
  split; [exact E|]. rewrite E. cbn [trace fst].
  split; [right; right; unfold assembly; find_event|].
  split; [right; right;
          exact (assembly_writes_manifest
                   (sample_world (Entries ["notes.txt"]) (Some "not ok"))
                   (flags false false false false false ["site"])
                   "site" "site")|].
  split; [vm_compute; reflexivity|].
  split; [vm_compute; reflexivity|reflexivity].
Qed.

(** *** No question is asked during the assembly *)

Lemma quiet_ret {A : Type} (a : A) : quiet (ret a).
Proof. constructor. Qed.

Lemma quiet_throw {A : Type} code : quiet (@throw A code).
Proof. constructor. Qed.

Lemma quiet_emit e : is_question e = false -> quiet (emit e).
Proof. intros H. repeat constructor. exact H. Qed.

Lemma quiet_bind {A B : Type} (m : M A) (f : A -> M B) :
  quiet m -> (forall a, quiet (f a)) -> quiet (bind m f).
Proof.
  unfold quiet, trace, bind. destruct m as [t [a|code]]; simpl; intros Hm Hf.
  - specialize (Hf a). destruct (f a) as [t' r]. simpl in *.
    apply Forall_app. split; assumption.
  - exact Hm.
Qed.

Lemma quiet_when b m : quiet m -> quiet (when b m).
Proof. destruct b; [auto|intros _; apply quiet_ret]. Qed.

Lemma quiet_forEach {A : Type} (l : list A) f :
  (forall x, quiet (f x)) -> quiet (forEach l f).
Proof.
  intros Hf. induction l as [|x r IH]; simpl.
  - apply quiet_ret.
  - apply quiet_bind; [apply Hf|intros _; exact IH].
Qed.

Lemma quiet_readFileSync w path : quiet (readFileSync w path).
Proof. unfold readFileSync. destruct (readFile w path); constructor. Qed.

Lemma quiet_readdirSync w path : quiet (readdirSync w path).
Proof. unfold readdirSync. destruct (readdir w path); constructor. Qed.

Lemma quiet_write file d mode : quiet (write file d mode).
Proof. repeat constructor. Qed.

Lemma quiet_mkdir base dir : quiet (mkdir base dir).
Proof. repeat constructor. Qed.

Lemma quiet_copyTemplate w from to : quiet (copyTemplate w from to).
Proof.
  unfold copyTemplate. apply quiet_bind; [apply quiet_readFileSync|].
  intros c. apply quiet_write.
Qed.

Lemma quiet_copyTemplateMulti w fromDir toDir nameGlob :
  quiet (copyTemplateMulti w fromDir toDir nameGlob).
Proof.
  unfold copyTemplateMulti. apply quiet_bind; [apply quiet_readdirSync|].
  intros names. apply quiet_forEach. intros name. apply quiet_copyTemplate.
Qed.

Ltac quiet_step :=
  first
    [ apply quiet_copyTemplateMulti
    | apply quiet_copyTemplate
    | apply quiet_mkdir
    | apply quiet_write
    | apply quiet_readFileSync
    | apply quiet_when
    | apply quiet_emit; reflexivity
    | apply quiet_ret
    | apply quiet_bind; [|intros ?] ].

Lemma quiet_createApplication w program name dir :
  quiet (createApplication w program name dir).
Proof.
  unfold createApplication, loadTemplate.
  repeat quiet_step.
  destruct (launchedFromCmd w); quiet_step.
Qed.

(** C9. When reading the destination fails with [ENOENT], the run is the
    assembly itself, whatever the force flag: no question is asked, and on a
    packaged tool every event of the assembly takes place. *)
Theorem missing_destination_is_empty
    (w : World) (program : Program)
    (Hmissing : readdir w (destinationPath program) = ReadError "ENOENT") :
  main w program =
    createApplication w program (appName w program) (destinationPath program) /\
  Forall (fun e => is_question e = false) (trace (main w program)) /\
  (packaged w = true ->
   main w program =
     (assembly w program (appName w program) (destinationPath program), Ok tt)).
Proof.
  assert (main w program =
          createApplication w program (appName w program)
            (destinationPath program)) as E.
  { unfold main, emptyDirectory. rewrite Hmissing. reflexivity. }
  split; [exact E|]. split.
  - rewrite E. apply quiet_createApplication.
  - intros Hp. rewrite E. apply createApplication_run, Hp.
Qed.

Lemma missing_destination_is_empty_witness :
  let program := flags false false false false false ["my-app"] in
  let w := sample_world (ReadError "ENOENT") None in
  readdir w (destinationPath program) = ReadError "ENOENT" /\
  force program = false /\
  main w program = createApplication w program "my-app" "my-app" /\
  Forall (fun e => is_question e = false) (trace (main w program)) /\
  main w program = (assembly w program "my-app" "my-app", Ok tt).
Proof.
  cbv zeta.
  pose proof (missing_destination_is_empty
                (sample_world (ReadError "ENOENT") None)
                (flags false false false false false ["my-app"]) eq_refl)
    as (E & Hq & Ha).
  split; [reflexivity|]. split; [reflexivity|].
  split; [exact E|]. split; [exact Hq|exact (Ha eq_refl)].
Defined.

(** ** Copying a family of templates *)

Lemma matches_star r s :
  Glob.matches (Glob.Star :: r) s =
  Glob.matches r s ||
  match s with
  | EmptyString => false
  | String d t => negb (Chars.is_slash d) && Glob.matches (Glob.Star :: r) t
  end.
Proof. destruct s; reflexivity. Qed.

Lemma matches_star_split r s :
  Glob.matches (Glob.Star :: r) s = true ->
  exists stem rest, s = (stem ++ rest)%string /\ Glob.matches r rest = true.
Proof.
  induction s as [|d t IH]; rewrite matches_star; intros H.
  - rewrite orb_false_r in H. exists EmptyString, EmptyString. auto.
  - apply orb_true_iff in H as [H|H].
    + exists EmptyString, (String d t). auto.
    + apply andb_true_iff in H as [_ H].
      destruct (IH H) as (stem & rest & -> & Hr).
      exists (String d stem), rest. auto.
Qed.

(** Literal tokens match one string only: the literal itself, case
    included. *)
Lemma matches_literal lit : forall s,
  Glob.matches (List.map Glob.Lit (list_ascii_of_string lit)) s = true ->
  s = lit.
Proof.
  induction lit as [|c lit IH]; intros s; simpl.
  - destruct s; [reflexivity|discriminate].
  - destruct s as [|d t]; [discriminate|].
    intros H. apply andb_true_iff in H as [Hc Ht].
    apply Ascii.eqb_eq in Hc. subst d. f_equal. apply IH, Ht.
Qed.

Lemma minimatch_suffix name lit :
  Glob.parse lit = List.map Glob.Lit (list_ascii_of_string lit) ->
  Glob.minimatch name (String "*" lit) = true ->
  exists stem, Path.basename name = (stem ++ lit)%string.
Proof.
  intros Hlit. unfold Glob.minimatch. cbn [Glob.parse]. rewrite Hlit.
  change (if Ascii.eqb "*" "*" then Glob.Star else _) with Glob.Star.
  intros H. apply andb_true_iff in H as [_ H].
  apply matches_star_split in H as (stem & rest & E & Hr).
  apply matches_literal in Hr. subst rest. eauto.
Qed.

Lemma written_paths_app t1 t2 :
  written_paths (t1 ++ t2) = (written_paths t1 ++ written_paths t2)%list.
Proof.
  induction t1 as [|e r IH]; simpl; [reflexivity|].
  destruct (written_path e); simpl; rewrite IH; reflexivity.
Qed.

Lemma written_paths_copied_family w fromDir toDir nameGlob :
  written_paths (copied_family w fromDir toDir nameGlob) =
  List.map (fun name => Path.join [toDir; name]) (matching w fromDir nameGlob).
Proof.
  unfold copied_family.
  induction (matching w fromDir nameGlob) as [|n rest IH]; [reflexivity|].
  cbn [flat_map List.map]. rewrite written_paths_app, IH. reflexivity.
Qed.

Lemma forEach_ext {A : Type} (l : list A) (f g : A -> M unit) :
  (forall x, f x = g x) -> forEach l f = forEach l g.
Proof.
  intros H. induction l as [|x r IH]; simpl; [reflexivity|].
  rewrite H, IH. reflexivity.
Qed.

(** The listing of one directory and the files read decide the copy. *)
Lemma copyTemplateMulti_one_listing w w' fromDir toDir nameGlob :
  dirname w' = dirname w ->
  (forall p, readFile w' p = readFile w p) ->
  readdir w' (Path.join [TEMPLATE_DIR w; fromDir]) =
    readdir w (Path.join [TEMPLATE_DIR w; fromDir]) ->
  copyTemplateMulti w' fromDir toDir nameGlob =
  copyTemplateMulti w fromDir toDir nameGlob.
Proof.
  intros Hd Hf Hl.
  unfold copyTemplateMulti, readdirSync, TEMPLATE_DIR. rewrite Hd.
  unfold TEMPLATE_DIR in Hl. rewrite Hl.
  destruct (readdir w _) as [names|code]; [|reflexivity].
  unfold ret, bind.
  rewrite (forEach_ext _ _
             (fun name =>
                copyTemplate w (Path.join [fromDir; name])
                               (Path.join [toDir; name]))); [reflexivity|].
  intros name.
  unfold copyTemplate, readFileSync, TEMPLATE_DIR. rewrite Hd, Hf. reflexivity.
Qed.

(** C8 as stated fails: the route templates are copied in the order of the
    directory listing, here [users.js] before [index.js], and listing the
    same two files the other way round turns the order of the copies. *)
Lemma copy_order_counterexample :
  let w := sample_world (Entries []) None in
  let w' := relisted w "/opt/express-cli/templates/js/routes"
                     ["index.js"; "users.js"] in
  written_paths (trace (copyTemplateMulti w "js/routes" "./routes" "*.js")) =
    ["routes/users.js"; "routes/index.js"] /\
  String.leb "routes/users.js" "routes/index.js" = false /\
  written_paths (trace (copyTemplateMulti w' "js/routes" "./routes" "*.js")) =
    ["routes/index.js"; "routes/users.js"].
Proof. cbv zeta. repeat split; reflexivity. Qed.

(** C8, amended. The enumeration reads one directory listing, keeps the
    entries whose base name ends with the literal suffix of the glob, case
    included, and copies them in the order of that listing; each copy goes
    to the entry's own name under the target directory, and no other
    listing takes part. *)
Theorem copyTemplateMulti_listing_order
    (w : World) (fromDir toDir nameGlob : string) (names : list string)
    (Hlisting : readdir w (Path.join [TEMPLATE_DIR w; fromDir]) = Entries names)
    (Hfiles : forallb (fun n => has_template w (Path.join [fromDir; n]))
                (filter (fun n => Glob.minimatch n nameGlob) names) = true) :
  written_paths (trace (copyTemplateMulti w fromDir toDir nameGlob)) =
    List.map (fun n => Path.join [toDir; n])
             (filter (fun n => Glob.minimatch n nameGlob) names) /\
  (forall w',
     dirname w' = dirname w ->
     (forall p, readFile w' p = readFile w p) ->
     readdir w' (Path.join [TEMPLATE_DIR w; fromDir]) = Entries names ->
     copyTemplateMulti w' fromDir toDir nameGlob =
     copyTemplateMulti w fromDir toDir nameGlob) /\
  (forall n, Glob.minimatch n "*.css" = true ->
     exists stem, Path.basename n = (stem ++ ".css")%string) /\
  (forall n, Glob.minimatch n "*.js" = true ->
     exists stem, Path.basename n = (stem ++ ".js")%string).
Proof.
  assert (has_family w fromDir nameGlob = true) as Hfam.
  { unfold has_family, matching, entries. rewrite Hlisting. exact Hfiles. }
  split.
  - rewrite copyTemplateMulti_ok by exact Hfam. cbn [trace fst].
    rewrite written_paths_copied_family.
    unfold matching, entries. rewrite Hlisting. reflexivity.
  - split.
    + intros w' Hd Hf Hl. apply copyTemplateMulti_one_listing; try assumption.
      rewrite Hl, Hlisting. reflexivity.
    + split; intros n; apply minimatch_suffix; reflexivity.
Qed.

Lemma copyTemplateMulti_listing_order_witness :
  let w := sample_world (Entries []) None in
  readdir w (Path.join [TEMPLATE_DIR w; "css"]) =
    Entries ["style.css"; "README.md"; "print.CSS"] /\
  written_paths (trace (copyTemplateMulti w "css" "./public/css" "*.css")) =
    ["public/css/style.css"] /\
  Glob.minimatch "print.CSS" "*.css" = false.
Proof.
  cbv zeta. split; [reflexivity|]. split; [|reflexivity].
  apply (copyTemplateMulti_listing_order (sample_world (Entries []) None)
           "css" "./public/css" "*.css"
           ["style.css"; "README.md"; "print.CSS"] eq_refl eq_refl).
Defined.

(** * Further properties of the source *)

(** ** The app name *)

Lemma toLowerCase_empty s : Str.is_empty (Str.toLowerCase s) = Str.is_empty s.
Proof. destruct s; reflexivity. Qed.

Lemma drop_while_all p s :
  Str.is_empty (Str.drop_while p s) = Str.all p s.
Proof.
  induction s as [|c t IH]; simpl; [reflexivity|].
  destruct (p c); [exact IH|reflexivity].
Qed.

Lemma strip_dashes_empty s :
  Str.is_empty (strip_dashes s) = Str.all Chars.is_dash s.
Proof.
  destruct s as [|c t]; [reflexivity|]. cbn [strip_dashes].
  destruct (Str.all Chars.is_dash (String c t)); reflexivity.
Qed.

Lemma trim_empty s : Str.is_empty (trim s) = Str.all Chars.is_sep s.
Proof.
  unfold trim. rewrite strip_dashes_empty, <- (drop_while_all Chars.is_sep s).
  pose proof (first_drop_while Chars.is_sep s) as H.
  destruct (Str.drop_while Chars.is_sep s) as [|c t]; [reflexivity|].
  simpl in *. rewrite (not_sep_not_dash c H). reflexivity.
Qed.

Lemma sep_of_name_char c :
  Chars.is_name_char c = true -> Chars.is_sep c = negb (is_alnum c).
Proof. by_cases_on_char c. Qed.

Lemma not_name_char_not_alnum c :
  Chars.is_name_char c = false -> is_alnum c = false.
Proof. by_cases_on_char c. Qed.

Lemma squeeze_all_sep s : forall b,
  Str.all Chars.is_sep (squeeze b s) =
  Str.all (fun c => negb (is_alnum c)) s.
Proof.
  induction s as [|c t IH]; intros b; simpl; [reflexivity|].
  destruct (Chars.is_name_char c) eqn:Hc.
  - simpl. rewrite (sep_of_name_char c Hc), IH. reflexivity.
  - rewrite (not_name_char_not_alnum c Hc). simpl.
    destruct b; simpl; apply IH.
Qed.

(** X1. The normalised name is empty, and [main] falls back on
    [hello-world], exactly when the last segment of the path holds no ASCII
    letter and no digit. *)
Theorem createAppName_empty_iff_no_alnum (p : string) :
  Str.is_empty (createAppName p) =
  Str.all (fun c => negb (is_alnum c)) (Path.basename p).
Proof.
  unfold createAppName.
  rewrite toLowerCase_empty, replace_unsafe, replace_trim, trim_empty.
  apply squeeze_all_sep.
Qed.

Lemma basename_last_segment dir n :
  Str.is_empty n = false ->
  Str.all (fun c => negb (Chars.is_slash c)) n = true ->
  Path.basename (dir ++ "/" ++ n) = n.
Proof.
  intros Hne Hn. unfold Path.basename.
  change (dir ++ "/" ++ n)%string with (dir ++ String "/" n)%string.
  rewrite split_app, (split_without_separator n Hn), filter_app.
  cbn [filter]. rewrite Hne. cbn [negb]. apply last_last.
Qed.

Lemma basename_trailing_slash p : Path.basename (p ++ "/") = Path.basename p.
Proof.
  unfold Path.basename.
  change (p ++ "/")%string with (p ++ String "/" EmptyString)%string.
  rewrite split_app, filter_app. cbn [Str.split filter Str.is_empty negb].
  rewrite app_nil_r. reflexivity.
Qed.

(** X2. Only the last segment of the path counts: a directory prefix and a
    trailing slash do not change the name. *)
Theorem createAppName_last_segment
    (dir n : string)
    (Hne : Str.is_empty n = false)
    (Hn : Str.all (fun c => negb (Chars.is_slash c)) n = true) :
  createAppName (dir ++ "/" ++ n) = createAppName n /\
  createAppName (dir ++ "/" ++ n ++ "/") = createAppName n.
Proof.
  split.
  - rewrite <- (createAppName_basename (dir ++ "/" ++ n)).
    rewrite basename_last_segment by assumption. reflexivity.
  - rewrite <- (createAppName_basename (dir ++ "/" ++ n ++ "/")).
    replace (dir ++ "/" ++ n ++ "/")%string with ((dir ++ "/" ++ n) ++ "/")%string
      by (rewrite !str_append_assoc; reflexivity).
    rewrite basename_trailing_slash, basename_last_segment by assumption.
    reflexivity.
Qed.

Lemma createAppName_last_segment_witness :
  Str.is_empty "My Site" = false /\
  createAppName "/home/me/projects/My Site" = createAppName "My Site" /\
  createAppName "/home/me/projects/My Site/" = "my-site".
Proof.
  split; [reflexivity|].
  destruct (createAppName_last_segment "/home/me/projects" "My Site"
              eq_refl eq_refl) as [H1 H2].
  split; [exact H1|]. etransitivity; [exact H2|reflexivity].
Defined.

(** X3. A last segment that is already a package name is kept as it is: made
    of [[a-z0-9.-]], not empty, not starting with a dash, an underscore or a
    dot and not ending with a dash, it is the app name, whatever directory
    it lies in. *)
Theorem createAppName_keeps_safe_name
    (dir n : string)
    (Hne : Str.is_empty n = false)
    (Hsafe : Str.all Chars.is_safe n = true)
    (Hfirst : Str.first_is Chars.is_sep n = false)
    (Hlast : Str.last_is Chars.is_dash n = false) :
  createAppName (dir ++ "/" ++ n) = n /\
  Str.or_else (createAppName (dir ++ "/" ++ n)) "hello-world" = n.
Proof.
  assert (createAppName (dir ++ "/" ++ n) = n) as E.
  { rewrite <- (createAppName_basename (dir ++ "/" ++ n)).
    rewrite basename_last_segment.
    - apply createAppName_fixed; assumption.
    - exact Hne.
    - apply (all_weaken Chars.is_safe); [|exact Hsafe].
      intros c Hc. rewrite (safe_not_slash c Hc). reflexivity. }
  split; [exact E|]. rewrite E. unfold Str.or_else. rewrite Hne. reflexivity.
Qed.

Lemma createAppName_keeps_safe_name_witness :
  Str.all Chars.is_safe "my-app.v2" = true /\
  createAppName "/srv/www/my-app.v2" = "my-app.v2".
Proof.
  split; [reflexivity|].
  exact (proj1 (createAppName_keeps_safe_name "/srv/www" "my-app.v2"
                  eq_refl eq_refl eq_refl eq_refl)).
Defined.

Lemma lower_char_idem c : Chars.lower_char (Chars.lower_char c) = Chars.lower_char c.
Proof. by_cases_on_char c. Qed.

Lemma lower_char_name c :
  Chars.is_name_char (Chars.lower_char c) = Chars.is_name_char c.
Proof. by_cases_on_char c. Qed.

Lemma lower_char_slash c :
  Ascii.eqb (Chars.lower_char c) "/" = Ascii.eqb c "/".
Proof. by_cases_on_char c. Qed.

Lemma split_lower s :
  Str.split "/" (Str.toLowerCase s) =
  List.map Str.toLowerCase (Str.split "/" s).
Proof.
  unfold Str.toLowerCase.
  induction s as [|c t IH]; cbn [Str.map Str.split List.map]; [reflexivity|].
  rewrite lower_char_slash, IH.
  destruct (Ascii.eqb c "/"); [reflexivity|].
  pose proof (split_not_nil "/" t) as Hn.
  destruct (Str.split "/" t); [congruence|reflexivity].
Qed.

Lemma basename_lower p :
  Path.basename (Str.toLowerCase p) = Str.toLowerCase (Path.basename p).
Proof.
  unfold Path.basename. rewrite split_lower.
  induction (Str.split "/" p) as [|seg l IH]; [reflexivity|].
  cbn [List.map filter]. rewrite toLowerCase_empty.
  destruct (Str.is_empty seg); cbn [negb]; [exact IH|].
  cbn [last]. rewrite IH.
  destruct (filter _ l) eqn:E;
    destruct (filter _ (List.map Str.toLowerCase l)) eqn:E'; try reflexivity.
  - exfalso. clear IH.
    induction l as [|x l IHl]; [discriminate|].
    cbn [List.map filter] in E, E'. rewrite toLowerCase_empty in E'.
    destruct (Str.is_empty x); cbn [negb] in *; [auto|discriminate].
  - exfalso. clear IH.
    induction l as [|x l IHl]; [discriminate|].
    cbn [List.map filter] in E, E'. rewrite toLowerCase_empty in E'.
    destruct (Str.is_empty x); cbn [negb] in *; [auto|discriminate].
Qed.

Lemma squeeze_lower s : forall b,
  squeeze b (Str.toLowerCase s) = Str.toLowerCase (squeeze b s).
Proof.
  unfold Str.toLowerCase.
  induction s as [|c t IH]; intros b; cbn [Str.map squeeze]; [reflexivity|].
  rewrite lower_char_name.
  destruct (Chars.is_name_char c); cbn [Str.map].
  - rewrite IH. reflexivity.
  - destruct b; cbn [Str.map]; rewrite IH; reflexivity.
Qed.

Lemma all_lower p s :
  (forall c, p (Chars.lower_char c) = p c) ->
  Str.all p (Str.toLowerCase s) = Str.all p s.
Proof.
  intros Hp. unfold Str.toLowerCase.
  induction s as [|c t IH]; cbn [Str.map Str.all]; [reflexivity|].
  rewrite Hp, IH. reflexivity.
Qed.

Lemma drop_while_sep_lower s :
  Str.drop_while Chars.is_sep (Str.toLowerCase s) =
  Str.toLowerCase (Str.drop_while Chars.is_sep s).
Proof.
  unfold Str.toLowerCase.
  induction s as [|c t IH]; cbn [Str.map Str.drop_while]; [reflexivity|].
  rewrite lower_char_sep. destruct (Chars.is_sep c); [exact IH|reflexivity].
Qed.

Lemma strip_dashes_lower s :
  strip_dashes (Str.toLowerCase s) = Str.toLowerCase (strip_dashes s).
Proof.
  induction s as [|c t IH]; [reflexivity|].
  change (Str.toLowerCase (String c t))
    with (String (Chars.lower_char c) (Str.toLowerCase t)).
  cbn [strip_dashes].
  change (String (Chars.lower_char c) (Str.toLowerCase t))
    with (Str.toLowerCase (String c t)).
  rewrite (all_lower Chars.is_dash (String c t) lower_char_dash).
  destruct (Str.all Chars.is_dash (String c t)); [reflexivity|].
  rewrite IH. reflexivity.
Qed.

Lemma toLowerCase_idem s :
  Str.toLowerCase (Str.toLowerCase s) = Str.toLowerCase s.
Proof.
  unfold Str.toLowerCase.
  induction s as [|c t IH]; cbn [Str.map]; [reflexivity|].
  rewrite lower_char_idem, IH. reflexivity.
Qed.

(** X4. For a path whose code units are all below 256 (the strings of
    this development), the name does not depend on the case of the path:
    lower-casing the path first gives the same name.  In that range
    lower-casing acts on single characters: A-Z and the Latin-1 capitals. *)
Theorem createAppName_ignores_case (p : string) :
  createAppName (Str.toLowerCase p) = createAppName p.
Proof.
  unfold createAppName. rewrite !replace_unsafe, !replace_trim.
  rewrite basename_lower, squeeze_lower. unfold trim.
  rewrite drop_while_sep_lower, strip_dashes_lower.
  apply toLowerCase_idem.
Qed.

(** ** The confirmation test, in full *)

Lemma rmatch_ci_word w : forall pos s,
  Regex.rmatch (Regex.ci_word w) (pos, s) =
  if ci_prefix w s
  then [(pos + String.length w, Str.drop (String.length w) s)]
  else [].
Proof.
  induction w as [|x w IH]; intros pos s.
  - simpl. rewrite Nat.add_0_r. destruct s; reflexivity.
  - destruct w as [|y w].
    + destruct s as [|c t]; [reflexivity|]. cbn.
      destruct (Ascii.eqb _ _); [|reflexivity].
      replace (pos + 1) with (S pos) by lia. destruct t; reflexivity.
    + change (Regex.ci_word (String x (String y w)))
        with (Regex.Seq (Regex.ci x) (Regex.ci_word (String y w))).
      destruct s as [|c t]; [reflexivity|].
      cbn [Regex.rmatch Regex.ci fst snd].
      change (ci_prefix (String x (String y w)) (String c t))
        with (Ascii.eqb (Chars.canonicalize c) (Chars.canonicalize x)
              && ci_prefix (String y w) t).
      destruct (Ascii.eqb (Chars.canonicalize c) (Chars.canonicalize x));
        cbn [flat_map andb]; [|reflexivity].
      rewrite IH, app_nil_r.
      destruct (ci_prefix (String y w) t); [|reflexivity].
      replace (pos + String.length (String x (String y w)))
        with (S pos + String.length (String y w)) by (simpl; lia).
      reflexivity.
Qed.

Lemma match_at_confirm pos s :
  Regex.match_at confirm_re pos s <> None <->
  accepts_here (pos =? 0)%nat s = true.
Proof.
  unfold Regex.match_at, confirm_re, accepts_here.
  cbn [Regex.rmatch fst snd].
  destruct (pos =? 0)%nat; cbn [flat_map andb app];
    rewrite ?rmatch_ci_word; cbn [String.length];
    (destruct (ci_prefix "true" s); [destruct (Str.drop 4 s)|]);
    destruct (ci_prefix "y" s), (ci_prefix "yes" s), (ci_prefix "ok" s);
    cbn; split; congruence.
Qed.

Lemma test_from_split r s : forall pos,
  Regex.test_from r pos s = true <->
  exists a b, s = (a ++ b)%string /\
              Regex.match_at r (pos + String.length a) b <> None.
Proof.
  induction s as [|c t IH]; intros pos.
  - simpl. split.
    + intros H. exists EmptyString, EmptyString. split; [reflexivity|].
      simpl. rewrite Nat.add_0_r.
      destruct (Regex.match_at r pos EmptyString); congruence.
    + intros (a & b & E & H).
      destruct a; [|discriminate]. simpl in E. subst b.
      simpl in H. rewrite Nat.add_0_r in H.
      destruct (Regex.match_at r pos EmptyString); congruence.
  - cbn [Regex.test_from]. split.
    + intros H.
      destruct (Regex.match_at r pos (String c t)) eqn:E.
      * exists EmptyString, (String c t). split; [reflexivity|].
        simpl. rewrite Nat.add_0_r. congruence.
      * apply IH in H as (a & b & -> & H).
        exists (String c a), b. split; [reflexivity|].
        simpl. replace (pos + S (String.length a))
                 with (S pos + String.length a) by lia. exact H.
    + intros (a & b & E & H).
      destruct (Regex.match_at r pos (String c t)) eqn:Em; [reflexivity|].
      destruct a as [|c' a].
      * simpl in E, H. subst b. rewrite Nat.add_0_r in H. congruence.
      * simpl in E. injection E as -> ->.
        apply IH. exists a, b. split; [reflexivity|].
        simpl in H. replace (S pos + String.length a)
                      with (pos + S (String.length a)) by lia. exact H.
Qed.

Lemma ci_prefix_split w : forall s,
  ci_prefix w s = true <->
  exists m b, s = (m ++ b)%string /\ canonical m = canonical w.
Proof.
  unfold canonical.
  induction w as [|x w IH]; intros s.
  - split; [|reflexivity]. intros _. exists EmptyString, s. auto.
  - destruct s as [|c t]; cbn [ci_prefix].
    + split; [discriminate|]. intros (m & b & E & H).
      destruct m; [discriminate H|discriminate E].
    + rewrite andb_true_iff, Ascii.eqb_eq, IH. split.
      * intros (Hc & m & b & -> & Hm). exists (String c m), b.
        split; [reflexivity|]. cbn [Str.map]. rewrite Hc, Hm. reflexivity.
      * intros (m & b & E & H). destruct m as [|c' m]; [discriminate H|].
        simpl in E. injection E as -> ->. cbn [Str.map] in H.
        injection H as Hc Hm. split; [exact Hc|]. eauto.
Qed.

Lemma str_map_length f s : String.length (Str.map f s) = String.length s.
Proof. induction s; simpl; auto. Qed.

Lemma drop_app m b : Str.drop (String.length m) (m ++ b) = b.
Proof. induction m; simpl; auto. Qed.

Lemma str_append_nil_r s : (s ++ "")%string = s.
Proof. induction s as [|c s IH]; simpl; [reflexivity|]. rewrite IH. reflexivity. Qed.

(** X5. The confirmation test, in full: a line is taken as a yes exactly
    when it begins with [y], or holds [yes] or [ok] somewhere, or ends with
    [true], the case of ASCII letters ignored.  Every other line (the empty
    line, [n], [no]) is a no. *)
Theorem confirm_answer_characterised (input : string) :
  confirm_answer input = true <->
  (exists c rest, input = String c rest /\ Chars.canonicalize c = "Y"%char) \/
  (exists a m b, input = (a ++ m ++ b)%string /\ canonical m = "YES") \/
  (exists a m b, input = (a ++ m ++ b)%string /\ canonical m = "OK") \/
  (exists a m, input = (a ++ m)%string /\ canonical m = "TRUE").
Proof.
  unfold confirm_answer, Regex.test. rewrite test_from_split. split.
  - intros (a & s & -> & H). apply match_at_confirm in H.
    unfold accepts_here in H. rewrite !orb_true_iff, !andb_true_iff in H.
    destruct H as [[[[Hpos Hy]|Hyes]|Hok]|[Htrue Hend]].
    + left. destruct a; [|discriminate Hpos].
      destruct s as [|c rest]; [discriminate Hy|].
      exists c, rest. split; [reflexivity|].
      simpl in Hy. rewrite andb_true_r in Hy. apply Ascii.eqb_eq in Hy.
      exact Hy.
    + right; left. apply ci_prefix_split in Hyes as (m & b & -> & Hm).
      exists a, m, b. auto.
    + right; right; left. apply ci_prefix_split in Hok as (m & b & -> & Hm).
      exists a, m, b. auto.
    + right; right; right.
      apply ci_prefix_split in Htrue as (m & b & -> & Hm).
      assert (String.length m = 4) as Hlen.
      { unfold canonical in Hm. rewrite <- (str_map_length Chars.canonicalize m), Hm.
        reflexivity. }
      rewrite <- Hlen, drop_app in Hend. destruct b; [|discriminate Hend].
      exists a, m. split; [|exact Hm].
      rewrite str_append_nil_r. reflexivity.
  - intros [(c & rest & -> & Hc)|[(a & m & b & -> & Hm)|
             [(a & m & b & -> & Hm)|(a & m & -> & Hm)]]].
    + exists EmptyString, (String c rest). split; [reflexivity|].
      apply match_at_confirm. unfold accepts_here. simpl.
      rewrite Hc. reflexivity.
    + exists a, (m ++ b)%string. split; [reflexivity|].
      apply match_at_confirm. unfold accepts_here.
      assert (ci_prefix "yes" (m ++ b) = true) as ->
        by (apply ci_prefix_split; eauto).
      rewrite orb_true_r. reflexivity.
    + exists a, (m ++ b)%string. split; [reflexivity|].
      apply match_at_confirm. unfold accepts_here.
      assert (ci_prefix "ok" (m ++ b) = true) as ->
        by (apply ci_prefix_split; eauto).
      rewrite !orb_true_r. reflexivity.
    + exists a, m. split; [reflexivity|].
      apply match_at_confirm. unfold accepts_here.
      assert (ci_prefix "true" m = true) as ->.
      { apply ci_prefix_split. exists m, EmptyString. split; [|exact Hm].
        rewrite str_append_nil_r. reflexivity. }
      assert (String.length m = 4) as Hlen.
      { unfold canonical in Hm. rewrite <- (str_map_length Chars.canonicalize m), Hm.
        reflexivity. }
      assert (Str.drop 4 m = EmptyString) as ->.
      { rewrite <- Hlen. apply drop_all. }
      rewrite !orb_true_r. reflexivity.
Qed.

(** ** The pre-check of [main] *)

(** X6. With the force flag a destination that holds entries is used at
    once: the run is the assembly itself, and no question is asked. *)
Theorem force_skips_the_question
    (w : World) (program : Program) (files : list string)
    (Hfiles : readdir w (destinationPath program) = Entries files)
    (Hforce : force program = true) :
  main w program =
    createApplication w program (appName w program) (destinationPath program) /\
  Forall (fun e => is_question e = false) (trace (main w program)).
Proof.
  assert (main w program =
          createApplication w program (appName w program)
            (destinationPath program)) as E.
  { unfold main, emptyDirectory. rewrite Hfiles, Hforce, orb_true_r.
    reflexivity. }
  split; [exact E|]. rewrite E. apply quiet_createApplication.
Qed.

Lemma force_skips_the_question_witness :
  let program := flags false false false false true ["site"] in
  let w := sample_world (Entries ["notes.txt"]) None in
  readdir w (destinationPath program) = Entries ["notes.txt"] /\
  main w program = createApplication w program "site" "site" /\
  Forall (fun e => is_question e = false) (trace (main w program)).
Proof.
  cbv zeta. split; [reflexivity|].
  exact (force_skips_the_question (sample_world (Entries ["notes.txt"]) None)
           (flags false false false false true ["site"]) ["notes.txt"]
           eq_refl eq_refl).
Defined.

(** X7. When the destination holds entries, the force flag is not set and
    the line typed is taken as a yes, the run asks its question, destroys
    standard input and then performs the assembly: nothing is created or
    written before the answer. *)
Theorem accepted_question_then_assembly
    (w : World) (program : Program) (files : list string) (input : string)
    (Hfiles : readdir w (destinationPath program) = Entries files)
    (Hnonempty : files <> [])
    (Hforce : force program = false)
    (Hline : stdin w = Some input)
    (Hyes : confirm_answer input = true) :
  let run :=
    createApplication w program (appName w program) (destinationPath program) in
  trace (main w program) =
    Question "destination is not empty, continue? [y/N] " :: StdinDestroy ::
    trace run /\
  snd (main w program) = snd run.
Proof.
  cbv zeta. unfold main, emptyDirectory, confirm.
  rewrite Hfiles, Hforce, Hline, Hyes.
  destruct files as [|f files]; [congruence|].
  cbn [orb]. unfold emit, bind, trace.
  destruct (createApplication w program (appName w program)
              (destinationPath program)) as [t r].
  split; reflexivity.
Qed.

Lemma accepted_question_then_assembly_witness :
  let program := flags false false false false false ["site"] in
  let w := sample_world (Entries ["notes.txt"]) (Some "Yes") in
  confirm_answer "Yes" = true /\
  trace (main w program) =
    Question "destination is not empty, continue? [y/N] " :: StdinDestroy ::
    assembly w program "site" "site".
Proof.
  cbv zeta. split; [reflexivity|].
  destruct (accepted_question_then_assembly
              (sample_world (Entries ["notes.txt"]) (Some "Yes"))
              (flags false false false false false ["site"])
              ["notes.txt"] "Yes" eq_refl) as [Ht _];
    [discriminate|reflexivity|reflexivity|reflexivity|].
  cbv zeta in Ht. rewrite Ht.
  rewrite createApplication_run by reflexivity. reflexivity.
Defined.

(** X8. When reading the destination fails with a code other than
    [ENOENT], the run throws that code at once: no question, no output, no
    directory, no file. *)
Theorem readdir_error_is_thrown
    (w : World) (program : Program) (code : string)
    (Herror : readdir w (destinationPath program) = ReadError code)
    (Hcode : code <> "ENOENT") :
  main w program = ([], Thrown code).
Proof.
  unfold main, emptyDirectory. rewrite Herror.
  destruct (String.eqb_spec code "ENOENT") as [E|_]; [contradiction|].
  reflexivity.
Qed.

Lemma readdir_error_is_thrown_witness :
  main (sample_world (ReadError "EACCES") (Some "y"))
       (flags true true true true true ["site"]) = ([], Thrown "EACCES").
Proof.
  apply (readdir_error_is_thrown
           (sample_world (ReadError "EACCES") (Some "y"))
           (flags true true true true true ["site"]) "EACCES" eq_refl).
  discriminate.
Defined.

(** ** One assembly *)

Lemma loadTemplate_fails w name code :
  readFile w (Path.join [dirname w; ".."; "templates"; name ++ ".ejs"]) =
    ReadFailure code ->
  loadTemplate w name = ([], Thrown code).
Proof.
  unfold loadTemplate, readFileSync. intros ->. reflexivity.
Qed.

(** X9. When reading one of the two entry templates ([js/app.js.ejs],
    [js/www.js.ejs]) fails, the assembly throws that very error after its
    first blank line: no directory is created and no file is written. *)
Theorem missing_entry_template_stops_the_assembly
    (w : World) (program : Program) (name dir code : string)
    (Hfails :
       readFile w (Path.join [dirname w; ".."; "templates"; "js/app.js.ejs"]) =
         ReadFailure code \/
       (has_ejs w "js/app.js" = true /\
        readFile w (Path.join [dirname w; ".."; "templates"; "js/www.js.ejs"]) =
          ReadFailure code)) :
  createApplication w program name dir = ([Stdout ""], Thrown code) /\
  no_mutation (trace (createApplication w program name dir)) = true.
Proof.
  assert (createApplication w program name dir =
          ([Stdout ""], Thrown code)) as E.
  { unfold createApplication.
    destruct Hfails as [Happ|[Happ Hwww]].
    - rewrite (loadTemplate_fails w "js/app.js" code Happ). reflexivity.
    - rewrite (loadTemplate_ok w "js/app.js" Happ).
      rewrite (loadTemplate_fails w "js/www.js" code Hwww). reflexivity. }
  split; [exact E|]. rewrite E. reflexivity.
Qed.

Lemma missing_entry_template_stops_the_assembly_witness :
  let w := sample_world_without
             "/opt/express-cli/templates/js/www.js.ejs" "EACCES" in
  has_ejs w "js/app.js" = true /\
  main w (flags true true true true false ["my-app"]) =
    ([Stdout ""], Thrown "EACCES").
Proof.
  cbv zeta. split; [reflexivity|].
  exact (proj1 (missing_entry_template_stops_the_assembly
                  (sample_world_without
                     "/opt/express-cli/templates/js/www.js.ejs" "EACCES")
                  (flags true true true true false ["my-app"])
                  "my-app" "my-app" "EACCES"
                  (or_intror (conj eq_refl eq_refl)))).
Defined.

Lemma Forall_flat_map_blocks {A : Type} (P : event -> Prop)
    (f : A -> list event) (l : list A) :
  (forall x, Forall P (f x)) -> Forall P (flat_map f l).
Proof.
  intros H. induction l as [|x l IH]; simpl; [constructor|].
  apply Forall_app. split; [apply H|exact IH].
Qed.

Lemma mode_ok_made dir base sub : Forall (mode_ok dir) (made base sub).
Proof. repeat constructor. Qed.

Lemma mode_ok_copied dir w from to : Forall (mode_ok dir) (copied w from to).
Proof. repeat constructor. Qed.

Lemma mode_ok_written dir file d : Forall (mode_ok dir) (written file d MODE_0666).
Proof. repeat constructor. Qed.

Lemma mode_ok_launcher dir d :
  Forall (mode_ok dir) (written (Path.join [dir; "bin/www.js"]) d MODE_0755).
Proof.
  constructor; [right; split; reflexivity|]. repeat constructor.
Qed.

Lemma mode_ok_family dir w fromDir toDir nameGlob :
  Forall (mode_ok dir) (copied_family w fromDir toDir nameGlob).
Proof. apply Forall_flat_map_blocks. intros n. apply mode_ok_copied. Qed.

Ltac forall_blocks lemmas :=
  repeat first
    [ apply Forall_nil
    | lemmas
    | apply Forall_app; split
    | match goal with
      | |- Forall _ (if ?b then _ else _) => destruct b
      end ].

(** X10. On a packaged tool every directory is created with mode 0755 and
    every file is written with mode 0666, except the launcher [bin/www.js],
    which is written with mode 0755. *)
Theorem assembly_modes
    (w : World) (program : Program) (name dir : string)
    (Hpackaged : packaged w = true) :
  let t := trace (createApplication w program name dir) in
  Forall (mode_ok dir) t /\
  In (WriteFile (Path.join [dir; "bin/www.js"])
        (Ejs (ejs_text w "js/www.js") (WwwLocals name)) MODE_0755) t.
Proof.
  cbv zeta. rewrite createApplication_run by exact Hpackaged.
  cbn [trace fst]. split.
  - unfold assembly, guidance.
    forall_blocks ltac:(first
      [ apply mode_ok_made | apply mode_ok_copied | apply mode_ok_written
      | apply mode_ok_launcher | apply mode_ok_family ]).
    all: repeat constructor.
  - unfold assembly. find_event.
Qed.

Lemma announced_in_app_l t t' e : announced_in t e -> announced_in (t ++ t') e.
Proof.
  destruct e; simpl; auto; intros H; apply in_or_app; left; exact H.
Qed.

Lemma announced_in_app_r t t' e : announced_in t e -> announced_in (t' ++ t) e.
Proof.
  destruct e; simpl; auto; intros H; apply in_or_app; right; exact H.
Qed.

Lemma self_announced_app t1 t2 :
  self_announced t1 -> self_announced t2 -> self_announced (t1 ++ t2).
Proof.
  unfold self_announced. intros H1 H2. apply Forall_app. split.
  - eapply Forall_impl; [|exact H1]. intros e. apply announced_in_app_l.
  - eapply Forall_impl; [|exact H2]. intros e. apply announced_in_app_r.
Qed.

Lemma self_announced_nil : self_announced [].
Proof. constructor. Qed.

Lemma self_announced_made base sub : self_announced (made base sub).
Proof. unfold self_announced, made. repeat constructor. Qed.

Lemma self_announced_written file d mode : self_announced (written file d mode).
Proof.
  unfold self_announced, written.
  constructor; [simpl; auto|]. repeat constructor.
Qed.

Lemma self_announced_copied w from to : self_announced (copied w from to).
Proof. apply self_announced_written. Qed.

Lemma self_announced_family w fromDir toDir nameGlob :
  self_announced (copied_family w fromDir toDir nameGlob).
Proof.
  unfold copied_family.
  induction (matching w fromDir nameGlob) as [|n l IH]; cbn [flat_map].
  - apply self_announced_nil.
  - apply self_announced_app; [apply self_announced_copied|exact IH].
Qed.

Lemma self_announced_guidance w name dir : self_announced (guidance w name dir).
Proof.
  unfold guidance. apply self_announced_app.
  - destruct (String.eqb dir "."); repeat constructor.
  - repeat constructor.
Qed.

(** X11. On a packaged tool every directory created and every file written
    is reported on standard output by its [create] line. *)
Theorem assembly_announces_every_mutation
    (w : World) (program : Program) (name dir : string)
    (Hpackaged : packaged w = true) :
  let t := trace (createApplication w program name dir) in
  Forall (announced_in t) t.
Proof.
  cbv zeta. rewrite createApplication_run by exact Hpackaged.
  cbn [trace fst]. change (self_announced (assembly w program name dir)).
  unfold assembly.
  repeat first
    [ apply self_announced_nil
    | apply self_announced_made
    | apply self_announced_copied
    | apply self_announced_written
    | apply self_announced_family
    | apply self_announced_guidance
    | apply self_announced_app
    | match goal with
      | |- self_announced (if ?b then _ else _) => destruct b
      end
    | solve [repeat constructor] ].
Qed.

Lemma assembly_modes_witness :
  let w := sample_world (Entries []) None in
  let program := flags false false false false false [] in
  packaged w = true /\
  In (WriteFile "bin/www.js"
        (Ejs "// /opt/express-cli/templates/js/www.js.ejs" (WwwLocals "my-site"))
        MODE_0755) (trace (main w program)) /\
  Forall (mode_ok ".") (trace (main w program)).
Proof.
  cbv zeta. split; [reflexivity|].
  destruct (assembly_modes (sample_world (Entries []) None)
              (flags false false false false false []) "my-site" "."
              eq_refl) as [Hall Hin].
  split; [exact Hin|exact Hall].
Defined.

Lemma assembly_announces_every_mutation_witness :
  let w := sample_world (Entries []) None in
  let program := flags true true true true false [] in
  packaged w = true /\
  Forall (announced_in (trace (main w program))) (trace (main w program)).
Proof.
  cbv zeta. split; [reflexivity|].
  exact (assembly_announces_every_mutation (sample_world (Entries []) None)
           (flags true true true true false []) "my-site" "." eq_refl).
Defined.

Lemma precedes_skip a b t0 t : precedes a b t -> precedes a b (t0 ++ t).
Proof.
  intros (t1 & t2 & -> & H). exists (t0 ++ t1)%list, t2.
  split; [rewrite <- app_assoc; reflexivity|exact H].
Qed.

Lemma precedes_cross a b t1 t2 :
  In a t1 -> In b t2 -> precedes a b (t1 ++ t2).
Proof.
  intros Ha Hb. apply in_split in Ha as (l1 & l2 & ->).
  exists l1, (l2 ++ t2)%list. split.
  - rewrite <- app_assoc. reflexivity.
  - apply in_or_app. right. exact Hb.
Qed.

Lemma in_made base sub : In (Mkdir (Path.join [base; sub]) MODE_0755) (made base sub).
Proof. right. left. reflexivity. Qed.

Lemma in_copied w from to :
  In (WriteFile to (Text (template_text w from)) MODE_0666) (copied w from to).
Proof. left. reflexivity. Qed.

Lemma in_copied_family w fromDir toDir nameGlob n :
  In n (matching w fromDir nameGlob) ->
  In (WriteFile (Path.join [toDir; n])
        (Text (template_text w (Path.join [fromDir; n]))) MODE_0666)
     (copied_family w fromDir toDir nameGlob).
Proof.
  intros H. unfold copied_family. apply in_flat_map.
  exists n. split; [exact H|apply in_copied].
Qed.

(** Finds the block that holds the directory, then the file after it. *)
Ltac directory_first :=
  first
    [ apply precedes_cross;
      [ apply in_made
      | solve [ repeat first
                  [ apply in_copied
                  | apply in_copied_family; assumption
                  | left; reflexivity
                  | apply in_or_app; left;
                    solve [ apply in_copied
                          | apply in_copied_family; assumption
                          | left; reflexivity ]
                  | apply in_or_app; right ] ] ]
    | apply precedes_skip; directory_first ].

(** X12. On a packaged tool a directory is created before a file is
    written into it: [public] before [public/index.html], [public/css] and
    [routes] before each stylesheet and route copied, [bin] before
    [bin/www.js], and with the pg flag [models], [db] and
    [db/scripts/users] before the three database files. *)
Theorem directories_before_files
    (w : World) (program : Program) (name dir : string)
    (Hpackaged : packaged w = true) :
  let t := trace (createApplication w program name dir) in
  let mk sub := Mkdir (Path.join [dir; sub]) MODE_0755 in
  let put from to := WriteFile to (Text (template_text w from)) MODE_0666 in
  precedes (mk "public")
           (put "js/index.html" (Path.join [dir; "public/index.html"])) t /\
  (forall n, In n (matching w "css" "*.css") ->
     precedes (mk "public/css")
              (put (Path.join ["css"; n]) (Path.join [dir ++ "/public/css"; n])) t) /\
  (forall n, In n (matching w "js/routes" "*.js") ->
     precedes (mk "routes")
              (put (Path.join ["js/routes"; n]) (Path.join [dir ++ "/routes"; n])) t) /\
  precedes (mk "bin")
           (WriteFile (Path.join [dir; "bin/www.js"])
              (Ejs (ejs_text w "js/www.js") (WwwLocals name)) MODE_0755) t /\
  (pg program = true ->
     precedes (mk "models")
              (put "models/users.js" (Path.join [dir; "models"; "users.js"])) t /\
     precedes (mk "db")
              (put "db/connection.js" (Path.join [dir; "db"; "connection.js"])) t /\
     precedes (mk "db/scripts/users")
              (put "db/scripts/users/createTable.js"
                 (Path.join [dir; "db"; "scripts"; "users"; "createTable.js"])) t).
Proof.
  cbv zeta. rewrite createApplication_run by exact Hpackaged.
  cbn [trace fst]. unfold assembly.
  split; [directory_first|].
  split; [intros n Hn; directory_first|].
  split; [intros n Hn; directory_first|].
  split; [directory_first|].
  intros Hpg. rewrite Hpg. rewrite <- !app_assoc.
  split; [|split]; directory_first.
Qed.

Lemma directories_before_files_witness :
  let w := sample_world (Entries []) None in
  let program := flags false true false false false [] in
  let t := trace (main w program) in
  packaged w = true /\
  In "users.js" (matching w "js/routes" "*.js") /\
  precedes (Mkdir "routes" MODE_0755)
    (WriteFile "routes/users.js"
       (Text "// /opt/express-cli/templates/js/routes/users.js") MODE_0666) t /\
  precedes (Mkdir "db/scripts/users" MODE_0755)
    (WriteFile "db/scripts/users/createTable.js"
       (Text "// /opt/express-cli/templates/db/scripts/users/createTable.js")
       MODE_0666) t.
Proof.
  cbv zeta. split; [reflexivity|].
  assert (In "users.js"
            (matching (sample_world (Entries []) None) "js/routes" "*.js")) as Hin
    by (left; reflexivity).
  split; [exact Hin|].
  pose proof (directories_before_files (sample_world (Entries []) None)
                (flags false true false false false []) "my-site" "."
                eq_refl) as H.
  cbv zeta in H. destruct H as (_ & _ & Hroutes & _ & Hpg).
  split; [exact (Hroutes "users.js" Hin)|].
  exact (proj2 (proj2 (Hpg eq_refl))).
Defined.

(** X13. On a packaged tool, with the test flag the smoke test
    [app.test.js] is copied into the destination and the manifest gets the
    [test] script and the [jest] and [supertest] devDependencies. *)
Theorem test_scaffold
    (w : World) (program : Program) (name dir : string)
    (Hpackaged : packaged w = true)
    (Htest : test program = true) :
  let m := manifest program name in
  let t := trace (createApplication w program name dir) in
  In (WriteFile (Path.join [dir; "app.test.js"])
        (Text (template_text w "js/app.test.js")) MODE_0666) t /\
  In (WriteFile (Path.join [dir; "package.json"])
        (Text (Json.stringify m ++ Json.nl)) MODE_0666) t /\
  Obj.get "test" (scripts m) =
    Some "node --experimental-vm-modules node_modules/jest/bin/jest.js" /\
  Obj.get "jest" (devDependencies m) = Some "^27.4.5" /\
  Obj.get "supertest" (devDependencies m) = Some "^6.1.6".
Proof.
  cbv zeta. rewrite createApplication_run by exact Hpackaged.
  cbn [trace fst].
  destruct program as [g p d t f a]. cbn [test] in Htest. subst t.
  split; [unfold assembly; cbn [test]; find_event|].
  split; [apply assembly_writes_manifest|].
  repeat split; destruct p, d; reflexivity.
Qed.

Lemma test_scaffold_witness :
  let w := sample_world (ReadError "ENOENT") None in
  let program := flags false false false true false ["my-app"] in
  packaged w = true /\ test program = true /\
  In (WriteFile "my-app/app.test.js"
        (Text "// /opt/express-cli/templates/js/app.test.js") MODE_0666)
     (trace (main w program)) /\
  Obj.keys (devDependencies (manifest program "my-app")) = ["jest"; "supertest"].
Proof.
  cbv zeta. split; [reflexivity|]. split; [reflexivity|].
  pose proof (test_scaffold (sample_world (ReadError "ENOENT") None)
                (flags false false false true false ["my-app"])
                "my-app" "my-app" eq_refl eq_refl) as H.
  cbv zeta in H. destruct H as (Hfile & _).
  split; [exact Hfile|reflexivity].
Defined.

(** X14. On a packaged tool, with the git flag the template [js/gitignore]
    is copied to [.gitignore] in the destination; the git and force flags
    and the arguments leave the manifest as it is. *)
Theorem git_scaffold
    (w : World) (program : Program) (name dir : string)
    (Hpackaged : packaged w = true)
    (Hgit : git program = true) :
  In (WriteFile (Path.join [dir; ".gitignore"])
        (Text (template_text w "js/gitignore")) MODE_0666)
     (trace (createApplication w program name dir)) /\
  (forall g f a,
     manifest (mkProgram g (pg program) (dev program) (test program) f a) name =
     manifest program name).
Proof.
  split.
  - rewrite createApplication_run by exact Hpackaged.
    cbn [trace fst]. unfold assembly. rewrite Hgit. find_event.
  - intros g f a. destruct program; reflexivity.
Qed.

Lemma git_scaffold_witness :
  let w := sample_world (Entries []) None in
  let program := flags true false false false false [] in
  packaged w = true /\
  In (WriteFile ".gitignore"
        (Text "// /opt/express-cli/templates/js/gitignore") MODE_0666)
     (trace (main w program)).
Proof.
  cbv zeta. split; [reflexivity|].
  exact (proj1 (git_scaffold (sample_world (Entries []) None)
                  (flags true false false false false []) "my-site" "."
                  eq_refl eq_refl)).
Defined.

(** ** The manifest for every set of flags *)

(** X15. The scripts keep the order in which they were added: [start]
    first, then [db:createusers] with the pg flag, [dev] with the dev flag
    and [test] with the test flag.  The [db:createusers] script preloads
    dotenv exactly when the dev flag is set too. *)
Theorem manifest_scripts (program : Program) (name : string) :
  let m := manifest program name in
  Obj.keys (scripts m) =
    (["start"] ++
     (if pg program then ["db:createusers"] else []) ++
     (if dev program then ["dev"] else []) ++
     (if test program then ["test"] else []))%list /\
  Obj.get "start" (scripts m) = Some "node ./bin/www.js" /\
  Obj.get "db:createusers" (scripts m) =
    (if pg program then
       Some (if dev program
             then "node -r dotenv/config ./db/scripts/users/createTable.js"
             else "node ./db/scripts/users/createTable.js")
     else None) /\
  Obj.get "dev" (scripts m) =
    (if dev program then Some "nodemon -r dotenv/config ./bin/www.js" else None).
Proof.
  destruct program as [g p d t f a]. cbv zeta. cbn [pg dev test].
  destruct p, d, t; repeat split; reflexivity.
Qed.

(** X16. The dependencies are the five fixed packages and, with the pg
    flag only, [pg]; the devDependencies are [dotenv] and [nodemon] with the
    dev flag and [jest] and [supertest] with the test flag.  The pg flag
    alone adds no devDependency, and no key appears twice. *)
Theorem manifest_packages (program : Program) (name : string) :
  let m := manifest program name in
  Obj.keys (dependencies m) =
    (["cookie-parser"; "cors"; "debug"; "express"; "morgan"] ++
     (if pg program then ["pg"] else []))%list /\
  Obj.keys (devDependencies m) =
    ((if dev program then ["dotenv"; "nodemon"] else []) ++
     (if test program then ["jest"; "supertest"] else []))%list /\
  NoDup (Obj.keys (scripts m)) /\
  NoDup (Obj.keys (dependencies m)) /\
  NoDup (Obj.keys (devDependencies m)) /\
  pkg_name m = name /\ pkg_version m = "0.0.0" /\
  pkg_private m = true /\ pkg_type m = "module".
Proof.
  destruct program as [g p d t f a]. cbv zeta. cbn [pg dev test].
  destruct p, d, t; repeat split; try reflexivity;
    cbn; repeat constructor; simpl; intuition discriminate.
Qed.

(** ** Sorting the dependencies keeps the versions *)

Lemma get_set_same k v o : Obj.get k (Obj.set k v o) = Some v.
Proof.
  induction o as [|[k' v'] r IH]; simpl.
  - rewrite String.eqb_refl. reflexivity.
  - destruct (String.eqb k' k) eqn:E; simpl; rewrite E; [reflexivity|exact IH].
Qed.

Lemma get_set_other k k' v o :
  k' <> k -> Obj.get k' (Obj.set k v o) = Obj.get k' o.
Proof.
  intros Hne. induction o as [|[k0 v0] r IH]; simpl.
  - destruct (String.eqb_spec k k'); [congruence|reflexivity].
  - destruct (String.eqb_spec k0 k) as [->|Hk]; simpl.
    + destruct (String.eqb_spec k k'); [congruence|reflexivity].
    + destruct (String.eqb k0 k'); [reflexivity|exact IH].
Qed.

Lemma get_absent k o : ~ In k (Obj.keys o) -> Obj.get k o = None.
Proof.
  induction o as [|[k' v'] r IH]; simpl; [reflexivity|].
  intros H. destruct (String.eqb_spec k' k); [tauto|]. apply IH. tauto.
Qed.

Lemma copy_bindings input k : forall l output,
  (forall x, In x l -> In x (Obj.keys input)) ->
  Obj.get k
    (fold_left
       (fun output key =>
          match Obj.get key input with
          | Some v => Obj.set key v output
          | None => output
          end) l output) =
  if in_dec string_dec k l then Obj.get k input else Obj.get k output.
Proof.
  induction l as [|x l IH]; intros output Hin; [reflexivity|].
  cbn [fold_left]. rewrite IH by (intros y Hy; apply Hin; right; exact Hy).
  destruct (get_of_key x input (Hin x (or_introl eq_refl))) as [v Hv].
  rewrite Hv.
  destruct (in_dec string_dec k l) as [Hl|Hl];
    destruct (in_dec string_dec k (x :: l)) as [Hxl|Hxl]; try reflexivity.
  - exfalso. apply Hxl. right. exact Hl.
  - destruct Hxl as [->|Hk]; [|contradiction].
    rewrite get_set_same. symmetry. exact Hv.
  - apply get_set_other. intros ->. apply Hxl. left. reflexivity.
Qed.

Lemma sortedObject_get (input : Obj.t) (k : string) :
  Obj.get k (sortedObject input) = Obj.get k input.
Proof.
  assert (forall x, In x (StringSort.sort (Obj.keys input)) ->
                    In x (Obj.keys input)) as Hperm.
  { intros x H. pose proof (StringSort.Permuted_sort (Obj.keys input)) as P.
    eapply Permutation_in; [apply Permutation_sym; exact P|exact H]. }
  unfold sortedObject. rewrite copy_bindings by exact Hperm.
  destruct (in_dec string_dec k (StringSort.sort (Obj.keys input))) as [H|H];
    [reflexivity|].
  simpl. symmetry. apply get_absent. intros Hk. apply H.
  eapply Permutation_in; [apply StringSort.Permuted_sort|exact Hk].
Qed.

(** X17. Sorting the dependencies changes their order only: every key keeps
    its version, a key that was absent stays absent, and the name, the
    scripts and the devDependencies are not touched. *)
Theorem pkg_sort_keeps_bindings (p : Pkg) (k : string) :
  Obj.get k (dependencies (pkg_sort p)) = Obj.get k (dependencies p) /\
  (In k (Obj.keys (dependencies (pkg_sort p))) <->
   In k (Obj.keys (dependencies p))) /\
  scripts (pkg_sort p) = scripts p /\
  devDependencies (pkg_sort p) = devDependencies p /\
  pkg_name (pkg_sort p) = pkg_name p.
Proof.
  unfold pkg_sort, with_dependencies. cbn [dependencies scripts devDependencies pkg_name].
  split; [apply sortedObject_get|].
  split; [|repeat split].
  split; intros H.
  - destruct (get_of_key k _ H) as [v Hv]. rewrite sortedObject_get in Hv.
    destruct (in_dec string_dec k (Obj.keys (dependencies p))) as [Hi|Hi];
      [exact Hi|].
    rewrite (get_absent k _ Hi) in Hv. discriminate.
  - destruct (get_of_key k _ H) as [v Hv].
    rewrite <- (sortedObject_get (dependencies p)) in Hv.
    destruct (in_dec string_dec k (Obj.keys (sortedObject (dependencies p))))
      as [Hi|Hi]; [exact Hi|].
    rewrite (get_absent k _ Hi) in Hv. discriminate.
Qed.

(** ** The text of the manifest *)

Lemma escape_char_safe c :
  Chars.is_safe c = true -> Json.escape_char c = String c EmptyString.
Proof. by_cases_on_char c. Qed.

Lemma escape_safe s : Str.all Chars.is_safe s = true -> Json.escape s = s.
Proof.
  induction s as [|c t IH]; cbn [Str.all Json.escape]; [reflexivity|].
  intros H. apply andb_true_iff in H as [Hc Ht].
  rewrite (escape_char_safe c Hc), IH by exact Ht. reflexivity.
Qed.

(** X18. The text written to [package.json] opens with the [name] member,
    which holds the app name as it is (a name of [[a-z0-9.-]] needs no
    escape), and closes with a brace and exactly one line feed. *)
Theorem manifest_text_shape
    (program : Program) (name : string)
    (Hname : Str.all Chars.is_safe name = true) :
  exists members : string,
    (Json.stringify (manifest program name) ++ Json.nl)%string =
    ("{" ++ Json.nl ++
     "  " ++ Json.dq ++ "name" ++ Json.dq ++ ": " ++
       Json.dq ++ name ++ Json.dq ++ "," ++ Json.nl ++
     members ++ Json.nl ++
     "}" ++ Json.nl)%string.
Proof.
  assert (pkg_name (manifest program name) = name) as Hn
    by (destruct program as [g p d t f a]; destruct p, d, t; reflexivity).
  unfold Json.stringify, Json.object. rewrite Hn.
  cbn [List.map fst snd]. unfold Json.quote at 2. rewrite (escape_safe name Hname).
  match goal with
  | |- context [String.concat ?sep (?x :: ?l)] => exists (String.concat sep l)
  end.
  cbn [String.concat]. rewrite !str_append_assoc. reflexivity.
Qed.

Lemma manifest_text_shape_witness :
  Str.all Chars.is_safe "my-site" = true /\
  exists members : string,
    (Json.stringify (manifest (flags false true true true false []) "my-site")
     ++ Json.nl)%string =
    ("{" ++ Json.nl ++
     "  " ++ Json.dq ++ "name" ++ Json.dq ++ ": " ++
       Json.dq ++ "my-site" ++ Json.dq ++ "," ++ Json.nl ++
     members ++ Json.nl ++
     "}" ++ Json.nl)%string.
Proof.
  split; [reflexivity|].
  exact (manifest_text_shape (flags false true true true false []) "my-site"
           eq_refl).
Defined.

(** ** Copying a family: failure and selection *)

Lemma copyTemplate_fails w from to code :
  readFile w (Path.join [TEMPLATE_DIR w; from]) = ReadFailure code ->
  copyTemplate w from to = ([], Thrown code).
Proof.
  unfold copyTemplate, readFileSync. intros ->. reflexivity.
Qed.

Lemma forEach_copy_stops w fromDir toDir a n b code :
  forallb (fun x => has_template w (Path.join [fromDir; x])) a = true ->
  readFile w (Path.join [TEMPLATE_DIR w; Path.join [fromDir; n]]) =
    ReadFailure code ->
  forEach (a ++ n :: b)%list
    (fun x => copyTemplate w (Path.join [fromDir; x]) (Path.join [toDir; x])) =
  (flat_map
     (fun x => copied w (Path.join [fromDir; x]) (Path.join [toDir; x])) a,
   Thrown code).
Proof.
  intros Ha Hn. induction a as [|x a IH]; cbn [app forEach flat_map].
  - rewrite (copyTemplate_fails _ _ _ _ Hn). reflexivity.
  - simpl in Ha. apply andb_true_iff in Ha as [Hx Ha].
    rewrite (copyTemplate_ok _ _ _ Hx), (IH Ha). reflexivity.
Qed.

(** X19. Copying a family stops at the first matching entry whose read
    fails: the entries before it are written, it and the entries after it
    are not, and the copy throws the error of that read ([ENOENT],
    [EISDIR], ...); nothing written is taken back. *)
Theorem copyTemplateMulti_stops_at_missing_file
    (w : World) (fromDir toDir nameGlob : string)
    (names before after : list string) (missing code : string)
    (Hlisting : readdir w (Path.join [TEMPLATE_DIR w; fromDir]) = Entries names)
    (Hmatching : filter (fun x => Glob.minimatch x nameGlob) names =
                 (before ++ missing :: after)%list)
    (Hbefore : forallb (fun x => has_template w (Path.join [fromDir; x]))
                 before = true)
    (Hmissing :
       readFile w (Path.join [TEMPLATE_DIR w; Path.join [fromDir; missing]]) =
         ReadFailure code) :
  copyTemplateMulti w fromDir toDir nameGlob =
    (flat_map
       (fun x => copied w (Path.join [fromDir; x]) (Path.join [toDir; x]))
       before,
     Thrown code) /\
  written_paths (trace (copyTemplateMulti w fromDir toDir nameGlob)) =
    List.map (fun x => Path.join [toDir; x]) before.
Proof.
  assert (copyTemplateMulti w fromDir toDir nameGlob =
          (flat_map
             (fun x => copied w (Path.join [fromDir; x]) (Path.join [toDir; x]))
             before, Thrown code)) as E.
  { unfold copyTemplateMulti, readdirSync. rewrite Hlisting.
    unfold ret, bind. rewrite Hmatching.
    rewrite (forEach_copy_stops _ _ _ _ _ _ _ Hbefore Hmissing). reflexivity. }
  split; [exact E|]. rewrite E. cbn [trace fst].
  clear. induction before as [|x l IH]; [reflexivity|].
  cbn [flat_map List.map]. rewrite written_paths_app, IH. reflexivity.
Qed.

Lemma copyTemplateMulti_stops_at_missing_file_witness :
  let w := sample_world_without
             "/opt/express-cli/templates/js/routes/index.js" "EISDIR" in
  readFile w "/opt/express-cli/templates/js/routes/index.js" =
    ReadFailure "EISDIR" /\
  copyTemplateMulti w "js/routes" "./routes" "*.js" =
    (copied w "js/routes/users.js" "routes/users.js", Thrown "EISDIR") /\
  written_paths (trace (copyTemplateMulti w "js/routes" "./routes" "*.js")) =
    ["routes/users.js"].
Proof.
  cbv zeta. split; [reflexivity|].
  exact (copyTemplateMulti_stops_at_missing_file
           (sample_world_without
              "/opt/express-cli/templates/js/routes/index.js" "EISDIR")
           "js/routes" "./routes" "*.js"
           ["users.js"; "index.js"] ["users.js"] [] "index.js" "EISDIR"
           eq_refl eq_refl eq_refl eq_refl).
Defined.

Lemma all_app p a b : Str.all p (a ++ b) = Str.all p a && Str.all p b.
Proof.
  induction a as [|c a IH]; simpl; [reflexivity|].
  rewrite IH, andb_assoc. reflexivity.
Qed.

Lemma matches_star_intro r rest stem :
  Str.all (fun c => negb (Chars.is_slash c)) stem = true ->
  Glob.matches r rest = true ->
  Glob.matches (Glob.Star :: r) (stem ++ rest) = true.
Proof.
  intros Hstem Hr. induction stem as [|c stem IH]; rewrite matches_star.
  - simpl. rewrite Hr. reflexivity.
  - simpl in Hstem. apply andb_true_iff in Hstem as [Hc Hs].
    cbn [String.append]. rewrite Hc, (IH Hs), orb_true_r. reflexivity.
Qed.

Lemma matches_literal_refl lit :
  Glob.matches (List.map Glob.Lit (list_ascii_of_string lit)) lit = true.
Proof.
  induction lit as [|c lit IH]; [reflexivity|].
  simpl. rewrite Ascii.eqb_refl. exact IH.
Qed.

Lemma minimatch_star_literal name lit :
  Glob.parse lit = List.map Glob.Lit (list_ascii_of_string lit) ->
  Str.first_is Chars.is_dot lit = true ->
  Str.all (fun c => negb (Chars.is_slash c)) name = true ->
  Glob.minimatch name (String "*" lit) = true <->
  exists stem, name = (stem ++ lit)%string /\
               Str.is_empty stem = false /\
               Str.first_is Chars.is_dot stem = false.
Proof.
  intros Hlit Hdotlit Hname. unfold Glob.minimatch. cbn [Glob.parse]. rewrite Hlit.
  change (if Ascii.eqb "*" "*" then Glob.Star else _) with Glob.Star.
  rewrite (basename_without_separator name Hname).
  cbn [Glob.starts_with_dot]. rewrite orb_false_r. split.
  - intros H. apply andb_true_iff in H as [H Hm].
    apply andb_true_iff in H as [Hne Hdot].
    apply negb_true_iff in Hdot.
    apply matches_star_split in Hm as (stem & rest & -> & Hr).
    apply matches_literal in Hr. subst rest.
    exists stem. split; [reflexivity|].
    destruct stem as [|c stem].
    + simpl in Hdot. congruence.
    + split; [reflexivity|exact Hdot].
  - intros (stem & -> & Hne & Hdot).
    rewrite all_app in Hname. apply andb_true_iff in Hname as [Hs _].
    destruct stem as [|c stem]; [discriminate Hne|].
    cbn [String.append Str.is_empty Str.first_is negb andb].
    simpl in Hdot. rewrite Hdot. cbn [negb andb].
    apply (matches_star_intro _ lit (String c stem) Hs).
    apply matches_literal_refl.
Qed.

(** X20. Which entries the two globs select: an entry (a name without a
    slash) is copied by [*.css], respectively [*.js], exactly when it is a
    non-empty stem that does not begin with a dot, followed by [.css],
    respectively [.js], written exactly so.  Hidden files and [.CSS] or
    [.JS] files are left out. *)
Theorem glob_selection (name : string)
    (Hname : Str.all (fun c => negb (Chars.is_slash c)) name = true) :
  (Glob.minimatch name "*.css" = true <->
   exists stem, name = (stem ++ ".css")%string /\
                Str.is_empty stem = false /\
                Str.first_is Chars.is_dot stem = false) /\
  (Glob.minimatch name "*.js" = true <->
   exists stem, name = (stem ++ ".js")%string /\
                Str.is_empty stem = false /\
                Str.first_is Chars.is_dot stem = false).
Proof.
  split; apply minimatch_star_literal; (reflexivity || exact Hname).
Qed.

Lemma glob_selection_witness :
  Str.all (fun c => negb (Chars.is_slash c)) "style.css" = true /\
  Glob.minimatch "style.css" "*.css" = true /\
  Glob.minimatch ".hidden.css" "*.css" = false /\
  Glob.minimatch "print.CSS" "*.css" = false.
Proof.
  split; [reflexivity|]. split; [|split; reflexivity].
  apply (proj1 (glob_selection "style.css" eq_refl)).
  exists "style". repeat split; reflexivity.
Defined.

(** ** [warning] and [renamedOption] *)

Lemma forEach_emit {A : Type} (f : A -> event) (l : list A) :
  forEach l (fun x => emit (f x)) = (List.map f l, Ok tt).
Proof.
  induction l as [|x l IH]; [reflexivity|].
  cbn [forEach List.map]. rewrite IH. reflexivity.
Qed.

Lemma str_concat_cons sep x l :
  l <> [] -> String.concat sep (x :: l) = (x ++ sep ++ String.concat sep l)%string.
Proof. destruct l; [congruence|reflexivity]. Qed.

Lemma str_concat_head sep c h r :
  String.concat sep (String c h :: r) = String c (String.concat sep (h :: r)).
Proof. destruct r; reflexivity. Qed.

Lemma concat_split sep s :
  String.concat (String sep EmptyString) (Str.split sep s) = s.
Proof.
  induction s as [|c t IH]; [reflexivity|].
  cbn [Str.split]. destruct (Ascii.eqb_spec c sep) as [->|Hne].
  - rewrite str_concat_cons by apply split_not_nil. rewrite IH. reflexivity.
  - pose proof (split_not_nil sep t) as Hn.
    destruct (Str.split sep t) as [|h r]; [congruence|].
    rewrite str_concat_head, IH. reflexivity.
Qed.

Lemma split_lines_no_separator sep s :
  Forall (fun line => Str.all (fun c => negb (Ascii.eqb c sep)) line = true)
         (Str.split sep s).
Proof.
  induction s as [|c t IH]; simpl.
  - repeat constructor.
  - destruct (Ascii.eqb c sep) eqn:Hc.
    + constructor; [reflexivity|exact IH].
    + destruct (Str.split sep t) as [|h r].
      * repeat constructor. simpl. rewrite Hc. reflexivity.
      * inversion IH; subst. constructor; [|assumption].
        simpl. rewrite Hc. assumption.
Qed.

(** X21. [warning] prints, on the error stream only, a blank line, one
    line per line of the message, each after the prefix [  warning: ], and a
    blank line; the printed lines, joined by line feeds, are the message. *)
Theorem warning_prints_the_message (message : string) :
  let lines := Str.split newline message in
  warning message =
    ((Stderr "" :: List.map (fun line => Stderr ("  warning: " ++ line)) lines
      ++ [Stderr ""])%list, Ok tt) /\
  String.concat (String newline "") lines = message /\
  Forall (fun line => Str.all (fun c => negb (Ascii.eqb c newline)) line = true)
         lines /\
  no_mutation (trace (warning message)) = true.
Proof.
  cbv zeta.
  assert (warning message =
          ((Stderr "" ::
            List.map (fun line => Stderr ("  warning: " ++ line))
                     (Str.split newline message) ++ [Stderr ""])%list, Ok tt))
    as E.
  { unfold warning. rewrite forEach_emit. reflexivity. }
  split; [exact E|]. split; [apply concat_split|].
  split; [apply split_lines_no_separator|].
  rewrite E. clear E. cbn [trace fst no_mutation forallb mutates negb andb].
  rewrite forallb_app. cbn. rewrite andb_true_r.
  induction (Str.split newline message) as [|l ls IH]; [reflexivity|exact IH].
Qed.

(** X22. The callback made by [renamedOption] hands the option's value back
    unchanged after warning that the option was renamed; for names without a
    line feed the warning is one line that quotes both names. *)
Theorem renamedOption_returns_the_value
    {A : Type} (originalName newName : string) (val : A)
    (Hold : Str.all (fun c => negb (Ascii.eqb c newline)) originalName = true)
    (Hnew : Str.all (fun c => negb (Ascii.eqb c newline)) newName = true) :
  renamedOption originalName newName val =
    ([Stderr "";
      Stderr ("  warning: option `" ++ originalName ++
              "' has been renamed to `" ++ newName ++ "'");
      Stderr ""], Ok val).
Proof.
  unfold renamedOption, warning. rewrite forEach_emit.
  assert (forall s, Str.all (fun c => negb (Ascii.eqb c newline)) s = true ->
                    Str.split newline s = [s]) as Hone.
  { induction s as [|c t IH]; simpl; [reflexivity|].
    intros H. apply andb_true_iff in H as [Hc Ht].
    apply negb_true_iff in Hc. rewrite Hc, (IH Ht). reflexivity. }
  rewrite Hone; [reflexivity|].
  rewrite !all_app, Hold, Hnew. reflexivity.
Qed.

Lemma renamedOption_returns_the_value_witness :
  renamedOption "--view" "--engine" 7 =
    ([Stderr "";
      Stderr "  warning: option `--view' has been renamed to `--engine'";
      Stderr ""], Ok 7).
Proof.
  exact (renamedOption_returns_the_value "--view" "--engine" 7 eq_refl eq_refl).
Defined.

(** ** [exit] calls [_exit] once, last *)

Lemma exit_writes_counts code streams : forall d,
  (0 <= d)%Z ->
  exit_writes code streams d =
  ([], (d + Z.of_nat (deferred streams))%Z, deferred streams).
Proof.
  unfold deferred.
  induction streams as [|sync rest IH]; intros d Hd.
  - simpl. rewrite Z.add_0_r. reflexivity.
  - cbn [exit_writes]. destruct sync; cbn [filter negb].
    + unfold done.
      replace (d + 1 =? 0)%Z with false by (symmetry; apply Z.eqb_neq; lia).
      replace (d + 1 - 1)%Z with d by lia.
      rewrite (IH d Hd). reflexivity.
    + rewrite (IH (d + 1)%Z) by lia. cbn [List.length app Nat.add].
      replace (d + Z.of_nat (S (List.length (filter negb rest))))%Z
        with (d + 1 + Z.of_nat (List.length (filter negb rest)))%Z by lia.
      reflexivity.
Qed.

Lemma exit_callbacks_counts code k : forall d,
  exit_callbacks code k d =
  (if ((0 <=? d) && (d <? Z.of_nat k))%Z then [Exit code] else [],
   (d - Z.of_nat k)%Z).
Proof.
  induction k as [|k IH]; intros d.
  - cbn [exit_callbacks]. rewrite Z.sub_0_r.
    destruct (0 <=? d)%Z eqn:E; cbn [andb]; [|reflexivity].
    replace (d <? Z.of_nat 0)%Z with false; [reflexivity|].
    symmetry. apply Z.ltb_ge. apply Z.leb_le in E. lia.
  - cbn [exit_callbacks]. unfold done. rewrite IH.
    replace (d - 1 - Z.of_nat k)%Z with (d - Z.of_nat (S k))%Z by lia.
    f_equal.
    destruct (Z.eqb_spec d 0) as [->|Hne].
    + replace ((0 <=? 0 - 1) && (0 - 1 <? Z.of_nat k))%Z with false
        by reflexivity.
      replace ((0 <=? 0) && (0 <? Z.of_nat (S k)))%Z with true
        by (symmetry; apply andb_true_iff; split;
            [reflexivity|apply Z.ltb_lt; lia]).
      reflexivity.
    + cbn [app].
      destruct (0 <=? d - 1)%Z eqn:E1; destruct (0 <=? d)%Z eqn:E2; cbn [andb];
        try reflexivity.
      * destruct (d - 1 <? Z.of_nat k)%Z eqn:E3;
          destruct (d <? Z.of_nat (S k))%Z eqn:E4; try reflexivity;
          [apply Z.ltb_lt in E3; apply Z.ltb_ge in E4
          |apply Z.ltb_ge in E3; apply Z.ltb_lt in E4]; lia.
      * apply Z.leb_le in E1. apply Z.leb_gt in E2. lia.
      * apply Z.leb_gt in E1. apply Z.leb_le in E2. lia.
Qed.

(** X23. [exit] calls [_exit] exactly once, with its code, and only in the
    last call of [done]: not while the writes are issued, at its own return
    only if no callback is still to come, and otherwise in the last
    callback.  This holds for any number of streams and any mix of early
    and late callbacks. *)
Theorem exit_calls_exit_once (code : nat) (streams : list bool) :
  let r := exit_drain code streams in
  let late := exit_callbacks code (pending_callbacks r) (counter_at_return r) in
  during_writes r = [] /\
  pending_callbacks r = deferred streams /\
  (at_return r ++ fst late)%list = [Exit code] /\
  (at_return r = [Exit code] <-> pending_callbacks r = 0) /\
  (forall j, j < pending_callbacks r ->
     fst (exit_callbacks code j (counter_at_return r)) = []) /\
  snd late = (-1)%Z.
Proof.
  cbv zeta. unfold exit_drain.
  rewrite exit_writes_counts by lia. unfold done.
  cbn [during_writes at_return pending_callbacks counter_at_return].
  set (k := deferred streams).
  rewrite exit_callbacks_counts. cbn [fst snd].
  replace (0 + Z.of_nat k)%Z with (Z.of_nat k) by lia.
  split; [reflexivity|]. split; [reflexivity|].
  destruct k as [|k].
  - split; [reflexivity|]. split; [tauto|]. split; [lia|reflexivity].
  - replace (Z.of_nat (S k) =? 0)%Z with false
      by (symmetry; apply Z.eqb_neq; lia).
    replace ((0 <=? Z.of_nat (S k) - 1) &&
             (Z.of_nat (S k) - 1 <? Z.of_nat (S k)))%Z with true
      by (symmetry; apply andb_true_iff; split;
          [apply Z.leb_le|apply Z.ltb_lt]; lia).
    split; [reflexivity|]. split; [split; discriminate|].
    split; [|lia].
    intros j Hj. rewrite exit_callbacks_counts. cbn [fst].
    replace (Z.of_nat (S k) - 1 <? Z.of_nat j)%Z with false
      by (symmetry; apply Z.ltb_ge; lia).
    rewrite andb_false_r. reflexivity.
Qed.

(** ** The assembly as a whole *)

Lemma only_builds_ret {A : Type} (a : A) : only_builds (ret a).
Proof. constructor. Qed.

Lemma only_builds_emit e : builds_or_prints e = true -> only_builds (emit e).
Proof. intros H. repeat constructor. exact H. Qed.

Lemma only_builds_bind {A B : Type} (m : M A) (f : A -> M B) :
  only_builds m -> (forall a, only_builds (f a)) -> only_builds (bind m f).
Proof.
  unfold only_builds, trace, bind. destruct m as [t [a|code]]; simpl; intros Hm Hf.
  - specialize (Hf a). destruct (f a) as [t' r]. simpl in *.
    apply Forall_app. split; assumption.
  - exact Hm.
Qed.

Lemma only_builds_when b m : only_builds m -> only_builds (when b m).
Proof. destruct b; [auto|intros _; apply only_builds_ret]. Qed.

Lemma only_builds_forEach {A : Type} (l : list A) f :
  (forall x, only_builds (f x)) -> only_builds (forEach l f).
Proof.
  intros Hf. induction l as [|x r IH]; simpl.
  - apply only_builds_ret.
  - apply only_builds_bind; [apply Hf|intros _; exact IH].
Qed.

Lemma only_builds_readFileSync w path : only_builds (readFileSync w path).
Proof. unfold readFileSync. destruct (readFile w path); constructor. Qed.

Lemma only_builds_readdirSync w path : only_builds (readdirSync w path).
Proof. unfold readdirSync. destruct (readdir w path); constructor. Qed.

Lemma only_builds_write file d mode : only_builds (write file d mode).
Proof. repeat constructor. Qed.

Lemma only_builds_mkdir base dir : only_builds (mkdir base dir).
Proof. repeat constructor. Qed.

Lemma only_builds_copyTemplate w from to : only_builds (copyTemplate w from to).
Proof.
  unfold copyTemplate. apply only_builds_bind; [apply only_builds_readFileSync|].
  intros c. apply only_builds_write.
Qed.

Lemma only_builds_copyTemplateMulti w fromDir toDir nameGlob :
  only_builds (copyTemplateMulti w fromDir toDir nameGlob).
Proof.
  unfold copyTemplateMulti.
  apply only_builds_bind; [apply only_builds_readdirSync|].
  intros names. apply only_builds_forEach. intros name.
  apply only_builds_copyTemplate.
Qed.

Ltac only_builds_step :=
  first
    [ apply only_builds_copyTemplateMulti
    | apply only_builds_copyTemplate
    | apply only_builds_mkdir
    | apply only_builds_write
    | apply only_builds_readFileSync
    | apply only_builds_when
    | apply only_builds_emit; reflexivity
    | apply only_builds_ret
    | apply only_builds_bind; [|intros ?] ].

(** X24. Whatever the environment and wherever it stops, an assembly only
    prints on standard output, creates directories and writes files: for
    every set of flags, name and destination, and also when a template read
    fails, it asks no question, prints nothing on the error stream, does not
    touch standard input and does not end the process. *)
Theorem assembly_only_builds_and_prints
    (w : World) (program : Program) (name dir : string) :
  Forall (fun e => builds_or_prints e = true)
         (trace (createApplication w program name dir)).
Proof.
  change (only_builds (createApplication w program name dir)).
  unfold createApplication, loadTemplate.
  repeat only_builds_step.
  destruct (launchedFromCmd w); only_builds_step.
Qed.
